(** * SavedModel loading: signature extraction, resolution and handle lifecycle

    A shallow embedding of [src/saved_models.ts].  The file follows the
    source top to bottom: the constants, [getEnumKeyFromValue],
    [readSavedModelProto], [getMetaGraphsFromSavedModel],
    [getSignatureDefEntryFromMetaGraphInfo] and the class [TFSavedModel]
    with its accessors [inputs], [outputs] and its method [dispose].

    Conventions of the embedding.
    - A JavaScript [throw] is the constructor [Throw] of [outcome]; code that
      threads exceptions through several calls is written in the error monad
      of [outcome] ([x ← c; k]).
    - A plain JavaScript object used as a dictionary
      ([{[key: string]: T}]) is a [JsObject T]: an association list in
      insertion order, because [Object.keys] exposes that order.  [obj_get]
      sees the object's own properties; a property read that can reach a
      name the object does not own ([obj_read]) also finds the members of
      [Object.prototype].
    - The process-wide [Map<number, ...>] of loaded models is a [gmap Z _].
    - [ModelTensorInfo] objects are shared between a signature and the arrays
      the accessors return, and the accessors assign to their [name] field;
      they therefore live in a [Heap] and are handled through locations.
    - Names that the source misspells and that are declared nowhere
      ([inputTensr], [entris], [signatuerDef], ...) are read as the names
      they stand for.  A statement that runs as it is written is embedded as
      written: line 129 assigns the property [tfDtkype], line 150 assigns
      the dimension list to [name]. *)

From Stdlib Require Import ZArith String Ascii List Permutation Lia.
From stdpp Require Import base option list strings gmap fin_maps.

Open Scope string_scope.

(** ** Constants *)

Definition SAVED_MODEL_FILE_NAME : string := "/saved_model.pb".

Definition SAVED_MODEL_INIT_OP_KEY : string := "__saved_model_init_op".

(** ** Exceptions *)

(** The exceptions this file can raise or meet: [new Error(msg)] thrown by the
    source itself, the [TypeError] JavaScript raises when a method is called
    on a value that does not have it, and the system error of a failed
    [fs] call (its [code] is [ENOENT], [EACCES], ...). *)
Inductive JsError : Type :=
| Error (msg : string)
| TypeError (msg : string)
| SystemError (code : string).

Inductive outcome (A : Type) : Type :=
| Ret (a : A)
| Throw (e : JsError).

Arguments Ret {A} a.
Arguments Throw {A} e.

#[global] Instance outcome_ret : MRet outcome := fun A a => Ret a.

#[global] Instance outcome_bind : MBind outcome := fun A B k c =>
  match c with
  | Ret a => k a
  | Throw e => Throw e
  end.

(** [try { c } catch (error) { throw e }] *)
Definition try_catch_rethrow {A} (c : outcome A) (e : JsError) : outcome A :=
  match c with
  | Ret a => Ret a
  | Throw _ => Throw e
  end.

(** ** JavaScript values that a string-typed slot can hold at run time *)

(** [getEnumKeyFromValue] is declared to return [string] and yields
    [undefined] when [Array.prototype.find] finds nothing. *)
Inductive JsKey : Type :=
| JUndefined
| JString (s : string).

(** ** Plain objects used as dictionaries *)

Definition JsObject (A : Type) : Type := list (string * A).

(** [o[key]] *)
Fixpoint obj_get {A} (o : JsObject A) (key : string) : option A :=
  match o with
  | [] => None
  | (k, v) :: rest => if String.eqb k key then Some v else obj_get rest key
  end.

(** [o[key] = v]: an existing property keeps its place, a new one is added
    last.  This is the order of [Object.keys] for keys that are not
    integer-like (those are listed first, in numeric order); assigning under
    the key [__proto__] sets the prototype and adds no property.  Statements
    about the order of keys are made for [plain_key]s. *)
Fixpoint obj_set {A} (o : JsObject A) (key : string) (v : A) : JsObject A :=
  match o with
  | [] => [(key, v)]
  | (k, w) :: rest =>
      if String.eqb k key then (k, v) :: rest else (k, w) :: obj_set rest key v
  end.

(** [Object.keys(o)] *)
Definition obj_keys {A} (o : JsObject A) : list string := map fst o.

(** The names of the members of [Object.prototype], which every object
    created by [{}] inherits. *)
Definition object_prototype_members : list string :=
  ["constructor"; "__defineGetter__"; "__defineSetter__"; "hasOwnProperty";
   "__lookupGetter__"; "__lookupSetter__"; "isPrototypeOf";
   "propertyIsEnumerable"; "toString"; "valueOf"; "__proto__";
   "toLocaleString"].

Definition is_prototype_member (key : string) : bool :=
  existsb (String.eqb key) object_prototype_members.

(** What reading [o[key]] gives for an arbitrary [key]: the own property, or
    the inherited member of [Object.prototype] of that name (a function, or
    [Object.prototype] itself for [__proto__]; never [null]), or
    [undefined]. *)
Inductive JsRead (A : Type) : Type :=
| Own (v : A)
| Inherited (member : string)
| Absent.

Arguments Own {A} v.
Arguments Inherited {A} member.
Arguments Absent {A}.

Definition obj_read {A} (o : JsObject A) (key : string) : JsRead A :=
  match obj_get o key with
  | Some v => Own v
  | None => if is_prototype_member key then Inherited key else Absent
  end.

(** A key under which assignment adds an ordinary property in insertion
    order: it does not start with a digit (every integer-like key does) and
    is not [__proto__]. *)
Definition is_digit (c : ascii) : bool :=
  (48 <=? nat_of_ascii c)%nat && (nat_of_ascii c <=? 57)%nat.

Definition plain_key (key : string) : bool :=
  match key with
  | EmptyString => true
  | String c _ => negb (is_digit c)
  end && negb (String.eqb key "__proto__").

(** [Object.keys(o).map(key => o[key])] *)
Definition obj_values {A} (o : JsObject A) : list A :=
  omap (fun key => obj_get o key) (obj_keys o).

(** ** [String.prototype.replace(/:0$/, '')] *)

(** The pattern [/:0$/] (no flags) matches only when the last two characters
    of the subject are [:0]; the single match is replaced by the empty
    string. *)
Fixpoint replace_colon0_at_end (s : string) : string :=
  match s with
  | EmptyString => EmptyString
  | String c rest =>
      if String.eqb s ":0" then EmptyString
      else String c (replace_colon0_at_end rest)
  end.

(** [s] ends with [:0]. *)
Fixpoint ends_with_colon0 (s : string) : bool :=
  match s with
  | EmptyString => false
  | String c rest => String.eqb s ":0" || ends_with_colon0 rest
  end.

(** [Array.prototype.join(",")], which is also how a template literal prints
    an array. *)
Definition join_comma (l : list string) : string := String.concat "," l.

(** ** The deserialized artifact (protobuf accessors of [./proto/api_pb]) *)

(** A [jspb.Map] with string keys: the list gives the entries in the order
    in which [keys()] yields their keys, and [get(key)] looks a key up. *)
Definition PbMap (A : Type) : Type := list (string * A).

Definition pbmap_keys {A} (m : PbMap A) : list string := map fst m.

Definition pbmap_get {A} (m : PbMap A) (key : string) : option A := obj_get m key.

Record TensorShapeProto : Type := { getDimList : list Z }.

(** A getter of a message-typed field returns [undefined] when the field is
    not set: [getTensorShape()] here, [getMetaInfoDef()] below. *)
Record TensorInfoProto : Type := {
  getDtype : Z;
  getName : string;
  getTensorShape : option TensorShapeProto
}.

Record SignatureDefProto : Type := {
  getInputsMap : PbMap TensorInfoProto;
  getOutputsMap : PbMap TensorInfoProto
}.

Record MetaInfoDefProto : Type := { getTagsList : list string }.

Record MetaGraphDefProto : Type := {
  getMetaInfoDef : option MetaInfoDefProto;
  getSignatureDefMap : PbMap SignatureDefProto
}.

Record SavedModelProto : Type := { getMetaGraphsList : list MetaGraphDefProto }.

(** ** The catalog built from it *)

(** What the [name] property of a [ModelTensorInfo] holds at run time.  Its
    declared type is [string]; the objects are created by the cast
    [{} as ModelTensorInfo], so whatever is assigned is stored. *)
Inductive NameSlot : Type :=
| NameString (s : string)
| NameDims (dims : list Z).

(** [shape] is [None] and [tfDtype] is [JUndefined] while the property has
    not been assigned.  [tfDtkype] is the property that line 129 assigns on
    the objects it creates; it is [JUndefined] on every other object. *)
Record ModelTensorInfo : Type := {
  dtype : string;
  tfDtype : JsKey;
  tfDtkype : JsKey;
  name : NameSlot;
  shape : option (list Z)
}.

Record SignatureDefEntry : Type := {
  inputs : JsObject ModelTensorInfo;
  outputs : JsObject ModelTensorInfo
}.

Definition SignatureDef : Type := JsObject SignatureDefEntry.

Record MetaGraph : Type := {
  tags : list string;
  signatureDefs : SignatureDef
}.

(** ** [getEnumKeyFromValue] *)

(** [Object.keys(object).find(key => object[key] === value)] *)
Definition getEnumKeyFromValue (object : JsObject Z) (value : Z) : JsKey :=
  match
    find (fun key => match obj_get object key with
                     | Some v => Z.eqb v value
                     | None => false
                     end) (obj_keys object)
  with
  | Some key => JString key
  | None => JUndefined
  end.

(** ** [readSavedModelProto] *)

Inductive FsEntry : Type :=
| NoEntry
| NoReadPermission
| ReadableFile (content : list Byte.byte).

Definition FileSystem : Type := string -> FsEntry.

(** What the function does to the outside world, in order. *)
Inductive IoEvent : Type :=
| EvAccess (file : string)
| EvReadFile (file : string)
| EvDeserialize (content : list Byte.byte).

(** [fs.accessSync(file, fs.constants.R_OK)] *)
Definition accessSync (fs : FileSystem) (file : string) : outcome unit :=
  match fs file with
  | ReadableFile _ => Ret tt
  | NoEntry => Throw (SystemError "ENOENT")
  | NoReadPermission => Throw (SystemError "EACCES")
  end.

(** [await readFile(file)] *)
Definition readFile (fs : FileSystem) (file : string) : outcome (list Byte.byte) :=
  match fs file with
  | ReadableFile content => Ret content
  | NoEntry => Throw (SystemError "ENOENT")
  | NoReadPermission => Throw (SystemError "EACCES")
  end.

Section ReadSavedModelProto.

(** The deserializer of [./proto/api_pb], which is not part of [src]. *)
Variable deserializeBinary : list Byte.byte -> outcome SavedModelProto.

(** Modelled from the spec: the source text of [readSavedModelProto] stops
    after the [try]/[catch] around [fs.accessSync]; what follows for a
    readable file (read the descriptor file, hand its bytes to the
    deserializer) is taken from sections 5 and 6 of the spec. *)
Definition readSavedModelProto_tail (fs : FileSystem) (path : string)
  : outcome SavedModelProto * list IoEvent :=
  let file := path ++ SAVED_MODEL_FILE_NAME in
  match readFile fs file with
  | Throw e => (Throw e, [EvReadFile file])
  | Ret content =>
      (deserializeBinary content, [EvReadFile file; EvDeserialize content])
  end.

Definition readSavedModelProto (fs : FileSystem) (path : string)
  : outcome SavedModelProto * list IoEvent :=
  let file := path ++ SAVED_MODEL_FILE_NAME in
  match
    try_catch_rethrow (accessSync fs file)
      (Error ("There is no saved_model.pb file in the directory: " ++ path))
  with
  | Throw e => (Throw e, [EvAccess file])
  | Ret _ =>
      let '(r, events) := readSavedModelProto_tail fs path in
      (r, EvAccess file :: events)
  end.

End ReadSavedModelProto.

(** ** [getMetaGraphsFromSavedModel] *)

Section Extractor.

(** [messages.DataType], the enumeration object of [./proto/api_pb], and
    [mapTFDtypeToJSDtype]: both are used by the extractor and defined
    outside [src], so the extractor is parameterised by them.  The
    argument of [mapTFDtypeToJSDtype] is whatever [getEnumKeyFromValue]
    returned. *)
Variable DataType : JsObject Z.
Variable mapTFDtypeToJSDtype : JsKey -> outcome string.

(** Lines 119-133: the loop over the keys of [getInputsMap()].  Line 129
    assigns the enum key to [tfDtkype]; [tfDtype] is never assigned. *)
Fixpoint inputs_loop (inputsMapMessage : PbMap TensorInfoProto)
    (inputsMapKeys : list string) (inputs : JsObject ModelTensorInfo)
  : outcome (JsObject ModelTensorInfo) :=
  match inputsMapKeys with
  | [] => Ret inputs
  | inputsMapKey :: rest =>
      match pbmap_get inputsMapMessage inputsMapKey with
      | None => Throw (TypeError "Cannot read properties of undefined")
      | Some inputTensor =>
          let dtype := getEnumKeyFromValue DataType (getDtype inputTensor) in
          d ← mapTFDtypeToJSDtype dtype;
          match getTensorShape inputTensor with
          | None => Throw (TypeError "Cannot read properties of undefined")
          | Some tensorShape =>
              let inputTensorInfo :=
                {| dtype := d;
                   tfDtype := JUndefined;
                   tfDtkype := dtype;
                   name := NameString (getName inputTensor);
                   shape := Some (getDimList tensorShape) |} in
              inputs_loop inputsMapMessage rest
                (obj_set inputs inputsMapKey inputTensorInfo)
          end
      end
  end.

(** Lines 139-152: the loop over the keys of [getOutputsMap()].  Line 150
    assigns the dimension list to [name]; [shape] is never assigned. *)
Fixpoint outputs_loop (outputsMapMessage : PbMap TensorInfoProto)
    (outputsMapKeys : list string) (outputs : JsObject ModelTensorInfo)
  : outcome (JsObject ModelTensorInfo) :=
  match outputsMapKeys with
  | [] => Ret outputs
  | outputsMapKey :: rest =>
      match pbmap_get outputsMapMessage outputsMapKey with
      | None => Throw (TypeError "Cannot read properties of undefined")
      | Some outputTensor =>
          let dtype := getEnumKeyFromValue DataType (getDtype outputTensor) in
          d ← mapTFDtypeToJSDtype dtype;
          match getTensorShape outputTensor with
          | None => Throw (TypeError "Cannot read properties of undefined")
          | Some tensorShape =>
              let outputTensorInfo :=
                {| dtype := d;
                   tfDtype := dtype;
                   tfDtkype := JUndefined;
                   name := NameDims (getDimList tensorShape);
                   shape := None |} in
              outputs_loop outputsMapMessage rest
                (obj_set outputs outputsMapKey outputTensorInfo)
          end
      end
  end.

(** Lines 113-154 for one signature entry. *)
Definition signatureDefEntry_of (signatureDefEntry : SignatureDefProto)
  : outcome SignatureDefEntry :=
  let inputsMapMessage := getInputsMap signatureDefEntry in
  inputs ← inputs_loop inputsMapMessage (pbmap_keys inputsMapMessage) [];
  let outputsMapMessage := getOutputsMap signatureDefEntry in
  outputs ← outputs_loop outputsMapMessage (pbmap_keys outputsMapMessage) [];
  Ret {| inputs := inputs; outputs := outputs |}.

(** Lines 104-155: the loop over the keys of [getSignatureDefMap()]. *)
Fixpoint signatureDefs_loop (signatureDefMap : PbMap SignatureDefProto)
    (signatureDefKeys : list string) (signatureDef : SignatureDef)
  : outcome SignatureDef :=
  match signatureDefKeys with
  | [] => Ret signatureDef
  | key :: rest =>
      if String.eqb key SAVED_MODEL_INIT_OP_KEY then
        signatureDefs_loop signatureDefMap rest signatureDef
      else
        match pbmap_get signatureDefMap key with
        | None => Throw (TypeError "Cannot read properties of undefined")
        | Some signatureDefEntry =>
            entry ← signatureDefEntry_of signatureDefEntry;
            signatureDefs_loop signatureDefMap rest
              (obj_set signatureDef key entry)
        end
  end.

(** Lines 94-158 for one element of [getMetaGraphsList()]. *)
Definition metaGraph_of (m : MetaGraphDefProto) : outcome MetaGraph :=
  match getMetaInfoDef m with
  | None => Throw (TypeError "Cannot read properties of undefined")
  | Some metaInfoDef =>
      let tags := getTagsList metaInfoDef in
      let signatureDefMap := getSignatureDefMap m in
      signatureDef ←
        signatureDefs_loop signatureDefMap (pbmap_keys signatureDefMap) [];
      Ret {| tags := tags; signatureDefs := signatureDef |}
  end.

(** Lines 93-160: the loop over [getMetaGraphsList()]. *)
Fixpoint metaGraphs_loop (metaGraphList : list MetaGraphDefProto)
    (result : list MetaGraph) : outcome (list MetaGraph) :=
  match metaGraphList with
  | [] => Ret result
  | m :: rest =>
      metaGraph ← metaGraph_of m;
      metaGraphs_loop rest (result ++ [metaGraph])
  end.

(** The body of [getMetaGraphsFromSavedModel] once the message is there. *)
Definition metaGraphsOfMessage (modelMessage : SavedModelProto)
  : outcome (list MetaGraph) :=
  metaGraphs_loop (getMetaGraphsList modelMessage) [].

Variable deserializeBinary : list Byte.byte -> outcome SavedModelProto.

Definition getMetaGraphsFromSavedModel (fs : FileSystem) (path : string)
  : outcome (list MetaGraph) :=
  modelMessage ← fst (readSavedModelProto deserializeBinary fs path);
  metaGraphsOfMessage modelMessage.

End Extractor.

(** ** [getSignatureDefEntryFromMetaGraphInfo] *)

Section Resolver.

(** [stringArraysHaveSameElements] is called by the resolver and defined
    outside [src]. *)
Variable stringArraysHaveSameElements : list string -> list string -> bool.

(** The value returned is whatever [signatureDefs[signature]] reads, when it
    is neither [null] nor [undefined]: the entry stored under that name, or,
    for a name the object does not own, the member of [Object.prototype] of
    that name. *)
Fixpoint getSignatureDefEntryFromMetaGraphInfo (savedModelInfo : list MetaGraph)
    (tags' : list string) (signature : string)
  : outcome (JsRead SignatureDefEntry) :=
  match savedModelInfo with
  | [] =>
      Throw (Error ("The SavedModel does not have tags: " ++ join_comma tags'))
  | metaGraphInfo :: rest =>
      if stringArraysHaveSameElements tags' (tags metaGraphInfo) then
        match obj_read (signatureDefs metaGraphInfo) signature with
        | Absent =>
            Throw (Error ("The SaveModel does not have signature: " ++ signature))
        | found => Ret found
        end
      else getSignatureDefEntryFromMetaGraphInfo rest tags' signature
  end.

End Resolver.

(** Modelled from the spec: [stringArraysHaveSameElements] is not in [src];
    section 4.3 of the spec asks for tag sets that are "exactly equal (as
    sets, order-independent, same cardinality, identical membership)". *)
Definition stringArraysHaveSameElements (arrayA arrayB : list string) : bool :=
  Nat.eqb (length arrayA) (length arrayB)
  && forallb (fun a => existsb (String.eqb a) arrayB) arrayA
  && forallb (fun b => existsb (String.eqb b) arrayA) arrayB.

(** ** Process-wide state: the table of loaded models and the backend *)

Module Loaded.
(** A value of [loadedSavedModelPathMap]. *)
Record t : Type := {
  path : string;
  tags : list string;
  sessionId : Z
}.
End Loaded.

(** [loadedSavedModelPathMap], [nextTFSavedModelId], and the calls made so
    far to [backend.deleteSavedModel], oldest first. *)
Record Process : Type := {
  loadedSavedModelPathMap : gmap Z Loaded.t;
  nextTFSavedModelId : Z;
  deleteSavedModel_calls : list Z
}.

(** ** The objects a signature refers to *)

(** Locations of [ModelTensorInfo] objects. *)
Abbreviation loc := nat.

Abbreviation Heap := (list ModelTensorInfo).

(** A [SignatureDefEntry] as the handle holds it: two dictionaries whose
    values are references to [ModelTensorInfo] objects. *)
Record SignatureObject : Type := {
  inputs_of : JsObject loc;
  outputs_of : JsObject loc
}.

(** Placing the tensor descriptions of a dictionary in the heap, each one a
    fresh object. *)
Fixpoint store_infos (o : JsObject ModelTensorInfo) (hp : Heap)
  : JsObject loc * Heap :=
  match o with
  | [] => ([], hp)
  | (key, info) :: rest =>
      let '(refs, hp') := store_infos rest (hp ++ [info]) in
      ((key, length hp) :: refs, hp')
  end.

Definition store_entry (e : SignatureDefEntry) (hp : Heap)
  : SignatureObject * Heap :=
  let '(ins, hp1) := store_infos (inputs e) hp in
  let '(outs, hp2) := store_infos (outputs e) hp1 in
  ({| inputs_of := ins; outputs_of := outs |}, hp2).

Definition set_name (info : ModelTensorInfo) (n : NameSlot) : ModelTensorInfo :=
  {| dtype := dtype info; tfDtype := tfDtype info; tfDtkype := tfDtkype info;
     name := n; shape := shape info |}.

(** [results.forEach(info => { info.name = info.name.replace(/:0$/, ''); })].
    A [name] that is not a string has no [replace] method, and the callback
    throws there; the objects visited before keep their new names. *)
Fixpoint forEach_strip (results : list loc) (hp : Heap) : outcome unit * Heap :=
  match results with
  | [] => (Ret tt, hp)
  | l :: rest =>
      match hp !! l with
      | None => (Throw (TypeError "Cannot read properties of undefined"), hp)
      | Some info =>
          match name info with
          | NameString s =>
              forEach_strip rest
                (<[l := set_name info (NameString (replace_colon0_at_end s))]> hp)
          | NameDims _ =>
              (Throw (TypeError "info.name.replace is not a function"), hp)
          end
      end
  end.

(** What a caller reads through an array of references. *)
Definition read_all (hp : Heap) (results : list loc) : list (option ModelTensorInfo) :=
  map (fun l => hp !! l) results.

(** ** The class [TFSavedModel] *)

Module TFSavedModel.

Record t : Type := {
  sessionId : Z;
  jsid : Z;
  signature : SignatureObject;
  disposed : bool
}.

(** The constructor; [disposed] starts as [false]. *)
Definition new (sessionId jsid : Z) (signature : SignatureObject) : t :=
  {| sessionId := sessionId; jsid := jsid; signature := signature;
     disposed := false |}.

Definition accessor (entries : JsObject loc) (hp : Heap)
  : outcome (list loc) * Heap :=
  let results := obj_values entries in
  match forEach_strip results hp with
  | (Ret _, hp') => (Ret results, hp')
  | (Throw e, hp') => (Throw e, hp')
  end.

(** [get inputs()] *)
Definition inputs (this : t) (hp : Heap) : outcome (list loc) * Heap :=
  accessor (inputs_of (signature this)) hp.

(** [get outputs()] *)
Definition outputs (this : t) (hp : Heap) : outcome (list loc) * Heap :=
  accessor (outputs_of (signature this)) hp.

(** The [for] loop of [dispose]: [true] when it leaves through [return].
    The entries are visited as the pairs [(id, get(id))]. *)
Fixpoint session_still_used (entries : list (Z * Loaded.t)) (sessionId : Z)
  : bool :=
  match entries with
  | [] => false
  | (id, value) :: rest =>
      if Z.eqb (Loaded.sessionId value) sessionId then true
      else session_still_used rest sessionId
  end.

Definition set_disposed (this : t) : t :=
  {| sessionId := sessionId this; jsid := jsid this;
     signature := signature this; disposed := true |}.

(** [dispose()] *)
Definition dispose (this : t) (p : Process) : outcome unit * t * Process :=
  if negb (disposed this) then
    let this' := set_disposed this in
    let remaining := delete (jsid this) (loadedSavedModelPathMap p) in
    if session_still_used (map_to_list remaining) (sessionId this) then
      (Ret tt, this',
       {| loadedSavedModelPathMap := remaining;
          nextTFSavedModelId := nextTFSavedModelId p;
          deleteSavedModel_calls := deleteSavedModel_calls p |})
    else
      (Ret tt, this',
       {| loadedSavedModelPathMap := remaining;
          nextTFSavedModelId := nextTFSavedModelId p;
          deleteSavedModel_calls :=
            deleteSavedModel_calls p ++ [sessionId this] |})
  else
    (Throw (Error "This SavedModel has already been deleted."), this, p).

End TFSavedModel.

(** * Vocabulary of the statements *)

(** Some entry of the table is bound to session [s]. *)
Definition references (m : gmap Z Loaded.t) (s : Z) : Prop :=
  exists id e, m !! id = Some e /\ Loaded.sessionId e = s.

(** What one call of [dispose] on a live handle does: it returns, the
    handle is disposed, its entry is gone from the table, and [calls] are the
    calls it made to [backend.deleteSavedModel]. *)
Definition disposes_live (this : TFSavedModel.t) (p : Process)
    (this' : TFSavedModel.t) (p' : Process) (calls : list Z) : Prop :=
  TFSavedModel.dispose this p = (Ret tt, this', p') /\
  TFSavedModel.disposed this' = true /\
  loadedSavedModelPathMap p' =
    delete (TFSavedModel.jsid this) (loadedSavedModelPathMap p) /\
  nextTFSavedModelId p' = nextTFSavedModelId p /\
  deleteSavedModel_calls p' = (deleteSavedModel_calls p ++ calls)%list.

(** Two tag lists are equal as sets: same cardinality, same members. *)
Definition same_tag_set (a b : list string) : Prop :=
  length a = length b /\ forall t, In t a <-> In t b.

(** The signature map of a metagraph without the entries stored under the
    reserved key. *)
Definition without_init_op (m : PbMap SignatureDefProto) : PbMap SignatureDefProto :=
  List.filter (fun kv => negb (String.eqb (fst kv) SAVED_MODEL_INIT_OP_KEY)) m.

Definition metaGraph_without_init_op (m : MetaGraphDefProto) : MetaGraphDefProto :=
  {| getMetaInfoDef := getMetaInfoDef m;
     getSignatureDefMap := without_init_op (getSignatureDefMap m) |}.

(** One produced metagraph [g] against the metagraph [m] it was read from:
    same tags, no reserved key, no key that [m] does not have, and every
    other signature of [m] converted and stored under its key. *)
Definition extracted_from (DataType : JsObject Z)
    (mapTFDtypeToJSDtype : JsKey -> outcome string)
    (m : MetaGraphDefProto) (g : MetaGraph) : Prop :=
  option_map getTagsList (getMetaInfoDef m) = Some (tags g) /\
  ~ In SAVED_MODEL_INIT_OP_KEY (obj_keys (signatureDefs g)) /\
  (forall key, In key (obj_keys (signatureDefs g)) ->
               In key (pbmap_keys (getSignatureDefMap m))) /\
  (forall key sig,
      key <> SAVED_MODEL_INIT_OP_KEY ->
      pbmap_get (getSignatureDefMap m) key = Some sig ->
      exists entry,
        signatureDefEntry_of DataType mapTFDtypeToJSDtype sig = Ret entry /\
        obj_get (signatureDefs g) key = Some entry).

(** [k] applications of [replace(/:0$/, '')] to a [name]; a [name] that is
    not a string is not touched. *)
Definition strip_name (k : nat) (n : NameSlot) : NameSlot :=
  match n with
  | NameString s => NameString (Nat.iter k replace_colon0_at_end s)
  | NameDims dims => NameDims dims
  end.

(** The object at [l] exists and its [name] is a string. *)
Definition string_named (hp : Heap) (l : loc) : Prop :=
  exists info s, hp !! l = Some info /\ name info = NameString s.

(** What a call of an accessor that listed [results] and ended in [r] has
    done to the heap.  No object appeared or disappeared.  Every object is
    the one that was there with its [name] put through [replace(/:0$/, '')]
    [k] times, nothing else of it being changed; [k] is at most the number of
    times the object is listed, so an object that is not listed is as it
    was; and when the call returned, [k] is exactly that number, so the name
    of every listed object has been stripped in the stored object itself. *)
Definition renames_stored_records (results : list loc)
    (r : outcome (list loc)) (hp hp' : Heap) : Prop :=
  length hp' = length hp /\
  forall l info,
    hp !! l = Some info ->
    exists k,
      hp' !! l = Some (set_name info (strip_name k (name info))) /\
      (k <= count_occ Nat.eq_dec results l)%nat /\
      (forall r', r = Ret r' -> k = count_occ Nat.eq_dec results l).

(** An accessor over the dictionary [entries] called twice in a row.  It
    returns whenever every listed object has a string for a name.  When the
    first call returns, the second one returns too, with the same sequence
    of objects; and when after the first call no listed name ends with [:0],
    the second call changes no object, so that what is read through the
    sequence at the second return is what was read at the first. *)
Definition returns_same_sequence_twice (entries : JsObject loc)
    (get : Heap -> outcome (list loc) * Heap) : Prop :=
  (forall hp,
      (forall l, In l (obj_values entries) -> string_named hp l) ->
      exists hp1, get hp = (Ret (obj_values entries), hp1)) /\
  forall hp r1 hp1,
    get hp = (Ret r1, hp1) ->
    exists hp2,
      get hp1 = (Ret r1, hp2) /\
      ((forall l info s, In l r1 -> hp1 !! l = Some info ->
                         name info = NameString s -> ends_with_colon0 s = false) ->
       hp2 = hp1 /\ read_all hp2 r1 = read_all hp1 r1).

(** * Scenarios used to exercise the statements *)

(** Two handles for the path [/m] with tags [serve], both on session 7, and a
    third model on session 9 (section 8 of the spec). *)
Definition served_on (s : Z) : Loaded.t :=
  {| Loaded.path := "/m"; Loaded.tags := ["serve"]; Loaded.sessionId := s |}.

Definition two_sharing : Process :=
  {| loadedSavedModelPathMap :=
       <[0%Z := served_on 7]> (<[1%Z := served_on 7]> (<[2%Z := served_on 9]> ∅));
     nextTFSavedModelId := 3;
     deleteSavedModel_calls := [] |}.

Definition no_signature : SignatureObject := {| inputs_of := []; outputs_of := [] |}.

Definition handle_A : TFSavedModel.t := TFSavedModel.new 7 0 no_signature.

Definition handle_B : TFSavedModel.t := TFSavedModel.new 7 1 no_signature.

(** The catalog of section 8 of the spec: one metagraph tagged [serve] with
    the signature [predict], whose input [x] is the tensor [input_x:0]. *)
Definition input_x : ModelTensorInfo :=
  {| dtype := "float32"; tfDtype := JString "DT_FLOAT"; tfDtkype := JUndefined;
     name := NameString "input_x:0"; shape := Some [(-1)%Z; 4%Z] |}.

Definition predict_entry : SignatureDefEntry :=
  {| inputs := [("x", input_x)]; outputs := [] |}.

Definition serve_catalog : list MetaGraph :=
  [ {| tags := ["serve"]; signatureDefs := [("predict", predict_entry)] |} ].

(** An enumeration and a dtype mapping to run the extractor with (the ones
    the program uses are outside [src]). *)
Definition DataType_sample : JsObject Z :=
  [("DT_INVALID", 0%Z); ("DT_FLOAT", 1%Z); ("DT_DOUBLE", 2%Z);
   ("DT_INT32", 3%Z); ("DT_STRING", 7%Z); ("DT_BOOL", 10%Z)].

Definition mapper_sample (key : JsKey) : outcome string :=
  match key with
  | JString "DT_FLOAT" => Ret "float32"
  | JString "DT_INT32" => Ret "int32"
  | JString "DT_BOOL" => Ret "bool"
  | JString "DT_STRING" => Ret "string"
  | _ => Throw (Error "Unsupported tensor DataType")
  end.

Definition tensor (code : Z) (n : string) (dims : list Z) : TensorInfoProto :=
  {| getDtype := code; getName := n;
     getTensorShape := Some {| getDimList := dims |} |}.

(** A model with one metagraph tagged [serve]: the signature [predict] with
    input [x] = [input_x:0] and output [y] = [out:0], and the initializer
    signature, whose tensor has a dtype code without a name. *)
Definition predict_proto : SignatureDefProto :=
  {| getInputsMap := [("x", tensor 1 "input_x:0" [(-1)%Z; 4%Z])];
     getOutputsMap := [("y", tensor 1 "out:0" [(-1)%Z; 1%Z])] |}.

Definition init_op_proto : SignatureDefProto :=
  {| getInputsMap := [];
     getOutputsMap := [("__saved_model_init_op", tensor 99 "NoOp" [])] |}.

Definition serve_message : SavedModelProto :=
  {| getMetaGraphsList :=
       [ {| getMetaInfoDef := Some {| getTagsList := ["serve"] |};
            getSignatureDefMap :=
              [("__saved_model_init_op", init_op_proto);
               ("predict", predict_proto)] |} ] |}.

Definition predict_message : SavedModelProto :=
  {| getMetaGraphsList :=
       [ {| getMetaInfoDef := Some {| getTagsList := ["serve"] |};
            getSignatureDefMap := [("predict", predict_proto)] |} ] |}.

(** What the extractor makes of [predict_proto] when the dtype code 1 has the
    name [key] and the portable type [d]: the input has the key under
    [tfDtkype] and no [tfDtype], the output has its dimension list for a
    name and no [shape]. *)
Definition predict_extracted (key : JsKey) (d : string) : SignatureDefEntry :=
  {| inputs :=
       [("x", {| dtype := d; tfDtype := JUndefined; tfDtkype := key;
                 name := NameString "input_x:0";
                 shape := Some [(-1)%Z; 4%Z] |})];
     outputs :=
       [("y", {| dtype := d; tfDtype := key; tfDtkype := JUndefined;
                 name := NameDims [(-1)%Z; 1%Z];
                 shape := None |})] |}.

(** A file system with a readable descriptor under [/m], a descriptor
    without read permission under [/locked], and nothing else. *)
Definition fs_sample : FileSystem := fun file =>
  if String.eqb file "/m/saved_model.pb" then ReadableFile [Byte.x0a]
  else if String.eqb file "/locked/saved_model.pb" then NoReadPermission
  else NoEntry.

Definition deserialize_sample (content : list Byte.byte) : outcome SavedModelProto :=
  Ret serve_message.

(** A handle on the signature [predict_entry], whose tensors are placed in
    an empty heap. *)
Definition predict_handle : TFSavedModel.t :=
  TFSavedModel.new 7 0 (fst (store_entry predict_entry [])).

Definition predict_heap : Heap := snd (store_entry predict_entry []).

(** A handle with the outputs [a] = [output:0] and [b] = [output], and one
    whose only input is named [a:0:0]. *)
Definition named (n : string) : ModelTensorInfo :=
  {| dtype := "float32"; tfDtype := JString "DT_FLOAT"; tfDtkype := JUndefined;
     name := NameString n; shape := Some [] |}.

Definition output_entry : SignatureDefEntry :=
  {| inputs := []; outputs := [("a", named "output:0"); ("b", named "output")] |}.

Definition output_handle : TFSavedModel.t :=
  TFSavedModel.new 7 0 (fst (store_entry output_entry [])).

Definition output_heap : Heap := snd (store_entry output_entry []).

Definition twice_suffixed_entry : SignatureDefEntry :=
  {| inputs := [("a", named "a:0:0")]; outputs := [] |}.

Definition twice_suffixed_handle : TFSavedModel.t :=
  TFSavedModel.new 7 0 (fst (store_entry twice_suffixed_entry [])).

Definition twice_suffixed_heap : Heap := snd (store_entry twice_suffixed_entry []).

(** * Vocabulary of the further properties *)

(** An enumeration object in which two keys have the value [1]. *)
Definition DataType_aliased : JsObject Z :=
  [("DT_INVALID", 0%Z); ("DT_FLOAT", 1%Z); ("DT_FLOAT_ALIAS", 1%Z)].

(** What the extractor makes of an input tensor and of an output tensor
    whose dimension list is [dims], once the dtype mapping has answered
    [d]. *)
Definition input_info_of (DataType : JsObject Z) (t : TensorInfoProto)
    (dims : list Z) (d : string) : ModelTensorInfo :=
  {| dtype := d;
     tfDtype := JUndefined;
     tfDtkype := getEnumKeyFromValue DataType (getDtype t);
     name := NameString (getName t);
     shape := Some dims |}.

Definition output_info_of (DataType : JsObject Z) (t : TensorInfoProto)
    (dims : list Z) (d : string) : ModelTensorInfo :=
  {| dtype := d;
     tfDtype := getEnumKeyFromValue DataType (getDtype t);
     tfDtkype := JUndefined;
     name := NameDims dims;
     shape := None |}.

(** The property [ki] of a produced dictionary is the conversion, by
    [info_of], of the tensor stored under the key [k] of the protobuf map
    [m]. *)
Definition converted_from (DataType : JsObject Z)
    (mapTFDtypeToJSDtype : JsKey -> outcome string)
    (info_of : JsObject Z -> TensorInfoProto -> list Z -> string ->
               ModelTensorInfo)
    (m : PbMap TensorInfoProto) (k : string) (ki : string * ModelTensorInfo)
  : Prop :=
  fst ki = k /\
  exists t tensorShape d,
    pbmap_get m k = Some t /\
    mapTFDtypeToJSDtype (getEnumKeyFromValue DataType (getDtype t)) = Ret d /\
    getTensorShape t = Some tensorShape /\
    snd ki = info_of DataType t (getDimList tensorShape) d.

(** The tensor [t] can be converted: the dtype mapping answers for it and
    its shape is set. *)
Definition tensor_converts (DataType : JsObject Z)
    (mapTFDtypeToJSDtype : JsKey -> outcome string) (t : TensorInfoProto) : Prop :=
  (exists d,
      mapTFDtypeToJSDtype (getEnumKeyFromValue DataType (getDtype t)) = Ret d) /\
  (exists tensorShape, getTensorShape t = Some tensorShape).

(** Every input and output tensor of a signature can be converted; the meta
    information of a metagraph is set and every signature of it other than
    the reserved one can be converted. *)
Definition signature_converts (DataType : JsObject Z)
    (mapTFDtypeToJSDtype : JsKey -> outcome string) (sig : SignatureDefProto)
  : Prop :=
  (forall k t, pbmap_get (getInputsMap sig) k = Some t ->
               tensor_converts DataType mapTFDtypeToJSDtype t) /\
  (forall k t, pbmap_get (getOutputsMap sig) k = Some t ->
               tensor_converts DataType mapTFDtypeToJSDtype t).

Definition metagraph_converts (DataType : JsObject Z)
    (mapTFDtypeToJSDtype : JsKey -> outcome string) (m : MetaGraphDefProto)
  : Prop :=
  (exists metaInfoDef, getMetaInfoDef m = Some metaInfoDef) /\
  forall key sig,
    key <> SAVED_MODEL_INIT_OP_KEY ->
    pbmap_get (getSignatureDefMap m) key = Some sig ->
    signature_converts DataType mapTFDtypeToJSDtype sig.

(** The keys of a signature map that the extractor keeps. *)
Definition kept_keys (ks : list string) : list string :=
  List.filter (fun k => negb (String.eqb k SAVED_MODEL_INIT_OP_KEY)) ks.

(** Disposing the handles of a list one after the other, and the table with
    the entries of a list of ids removed. *)
Fixpoint dispose_all (hs : list TFSavedModel.t) (p : Process) : Process :=
  match hs with
  | [] => p
  | h :: rest => dispose_all rest (snd (TFSavedModel.dispose h p))
  end.

Fixpoint delete_all (ids : list Z) (m : gmap Z Loaded.t) : gmap Z Loaded.t :=
  match ids with
  | [] => m
  | id :: rest => delete_all rest (delete id m)
  end.

(** A third handle on session 7 and a table with the three of them. *)
Definition handle_C : TFSavedModel.t := TFSavedModel.new 7 5 no_signature.

Definition three_sharing : Process :=
  {| loadedSavedModelPathMap :=
       <[5%Z := served_on 7]> (loadedSavedModelPathMap two_sharing);
     nextTFSavedModelId := 6;
     deleteSavedModel_calls := [] |}.

(** A signature whose second input has a dimension list for a name, as the
    outputs of the extractor have. *)
Definition dims_named (dims : list Z) : ModelTensorInfo :=
  {| dtype := "float32"; tfDtype := JString "DT_FLOAT"; tfDtkype := JUndefined;
     name := NameDims dims; shape := None |}.

Definition mixed_entry : SignatureDefEntry :=
  {| inputs := [("a", named "a:0"); ("b", dims_named [1%Z]); ("c", named "c:0")];
     outputs := [] |}.

Definition mixed_handle : TFSavedModel.t :=
  TFSavedModel.new 7 0 (fst (store_entry mixed_entry [])).

Definition mixed_heap : Heap := snd (store_entry mixed_entry []).

(** A signature in which the keys [a] and [b] refer to one and the same
    tensor, named [a:0:0]. *)
Definition aliased_handle : TFSavedModel.t :=
  TFSavedModel.new 7 0
    {| inputs_of := [("a", 0%nat); ("b", 0%nat)]; outputs_of := [] |}.

Definition aliased_heap : Heap := [named "a:0:0"].

(** * Properties *)

(** ** Dictionaries *)

Lemma obj_get_set {A} (o : JsObject A) (k k' : string) (v : A) :
  obj_get (obj_set o k v) k' = if String.eqb k k' then Some v else obj_get o k'.
Proof.
  induction o as [|[k0 w] o IH]; simpl.
  - reflexivity.
  - destruct (String.eqb k0 k) eqn:E0; simpl.
    + apply String.eqb_eq in E0. subst k0.
      destruct (String.eqb k k'); reflexivity.
    + destruct (String.eqb k0 k') eqn:E1.
      * apply String.eqb_eq in E1. subst k0.
        rewrite String.eqb_sym, E0. reflexivity.
      * exact IH.
Qed.

Lemma obj_get_None_keys {A} (o : JsObject A) (k : string) :
  obj_get o k = None <-> ~ In k (obj_keys o).
Proof.
  unfold obj_keys. induction o as [|[k0 w] o IH]; simpl.
  - intuition.
  - destruct (String.eqb k0 k) eqn:E0.
    + apply String.eqb_eq in E0. subst k0. split; [discriminate | intuition].
    + apply String.eqb_neq in E0. rewrite IH. intuition.
Qed.

(** ** The table of loaded models *)

Lemma session_still_used_In (entries : list (Z * Loaded.t)) (s : Z) :
  TFSavedModel.session_still_used entries s = true <->
  exists id e, In (id, e) entries /\ Loaded.sessionId e = s.
Proof.
  induction entries as [|[id value] rest IH]; simpl.
  - split; [discriminate | intros (? & ? & [] & _)].
  - destruct (Z.eqb_spec (Loaded.sessionId value) s) as [Heq|Hne].
    + split; [|reflexivity]. intros _. exists id, value. auto.
    + rewrite IH. split.
      * intros (id' & e & Hin & He). exists id', e. auto.
      * intros (id' & e & [Hhd|Hin] & He).
        -- inversion Hhd; subst. contradiction.
        -- exists id', e. auto.
Qed.

Lemma session_still_used_references (m : gmap Z Loaded.t) (s : Z) :
  TFSavedModel.session_still_used (map_to_list m) s = true <-> references m s.
Proof.
  rewrite session_still_used_In. unfold references.
  split; intros (id & e & H & He); exists id, e; split; try assumption.
  - apply elem_of_map_to_list. apply list_elem_of_In. exact H.
  - apply list_elem_of_In. apply elem_of_map_to_list. exact H.
Qed.

Lemma dispose_live (this : TFSavedModel.t) (p : Process) :
  TFSavedModel.disposed this = false ->
  exists this' p' calls,
    disposes_live this p this' p' calls /\
    (calls = [TFSavedModel.sessionId this] \/ calls = []) /\
    (calls = [TFSavedModel.sessionId this] <->
     ~ references (loadedSavedModelPathMap p') (TFSavedModel.sessionId this)).
Proof.
  intros Hlive. unfold disposes_live, TFSavedModel.dispose. rewrite Hlive. simpl.
  destruct (TFSavedModel.session_still_used _ _) eqn:E.
  - eexists _, _, []. simpl. rewrite app_nil_r.
    repeat split; auto.
    + discriminate.
    + intros Hno. exfalso. apply Hno.
      apply session_still_used_references. exact E.
  - eexists _, _, [_]. simpl.
    repeat split; auto.
    intros _ Href. apply session_still_used_references in Href.
    simpl in Href. rewrite E in Href. discriminate.
Qed.

Lemma not_references_scan (m : gmap Z Loaded.t) (s : Z) :
  TFSavedModel.session_still_used (map_to_list m) s = false -> ~ references m s.
Proof.
  intros Hf Href. apply session_still_used_references in Href. congruence.
Qed.

Lemma dispose_unreferenced (this : TFSavedModel.t) (p : Process) :
  TFSavedModel.disposed this = false ->
  ~ references (delete (TFSavedModel.jsid this) (loadedSavedModelPathMap p))
      (TFSavedModel.sessionId this) ->
  exists this' p',
    disposes_live this p this' p' [TFSavedModel.sessionId this].
Proof.
  intros Hlive Hno.
  destruct (dispose_live this p Hlive) as (this' & p' & calls & Hd & _ & Hiff).
  exists this', p'.
  assert (Hc : calls = [TFSavedModel.sessionId this]).
  { apply Hiff. destruct Hd as (_ & _ & Hm & _ & _). rewrite Hm. exact Hno. }
  rewrite <- Hc. exact Hd.
Qed.

Lemma dispose_referenced (this : TFSavedModel.t) (p : Process) :
  TFSavedModel.disposed this = false ->
  references (delete (TFSavedModel.jsid this) (loadedSavedModelPathMap p))
    (TFSavedModel.sessionId this) ->
  exists this' p', disposes_live this p this' p' [].
Proof.
  intros Hlive Href.
  destruct (dispose_live this p Hlive) as (this' & p' & calls & Hd & Hor & Hiff).
  exists this', p'.
  destruct Hor as [Hc|Hc]; [|rewrite <- Hc; exact Hd].
  exfalso. apply Hiff in Hc. apply Hc.
  destruct Hd as (_ & _ & Hm & _ & _). rewrite Hm. exact Href.
Qed.

(** Two live handles on one session, both in the table, no third entry on
    that session: whichever is disposed first leaves the session alone, and
    disposing the other one then deletes it. *)
Lemma dispose_pair (first second : TFSavedModel.t) (p : Process) (s : Z) :
  TFSavedModel.disposed first = false ->
  TFSavedModel.disposed second = false ->
  TFSavedModel.sessionId first = s ->
  TFSavedModel.sessionId second = s ->
  TFSavedModel.jsid first <> TFSavedModel.jsid second ->
  (exists e, loadedSavedModelPathMap p !! TFSavedModel.jsid second = Some e /\
             Loaded.sessionId e = s) ->
  ~ references (delete (TFSavedModel.jsid second)
                  (delete (TFSavedModel.jsid first) (loadedSavedModelPathMap p))) s ->
  exists first' second' p1 p2,
    disposes_live first p first' p1 [] /\
    disposes_live second p1 second' p2 [s].
Proof.
  intros Hf Hs Hsf Hss Hne (e & He & Hes) Hno.
  destruct (dispose_referenced first p Hf) as (first' & p1 & Hd1).
  { rewrite Hsf. exists (TFSavedModel.jsid second), e. split; [|exact Hes].
    rewrite lookup_delete_ne; [exact He | exact Hne]. }
  destruct (dispose_unreferenced second p1 Hs) as (second' & p2 & Hd2).
  { destruct Hd1 as (_ & _ & Hm & _ & _). rewrite Hm, Hss. exact Hno. }
  rewrite Hss in Hd2. exists first', second', p1, p2. split; assumption.
Qed.

(** C1.  [dispose()] on a live handle first removes the handle's entry from
    [loadedSavedModelPathMap] and then calls [backend.deleteSavedModel] if
    and only if no entry left in the table is bound to the handle's session.
    In particular, for two live handles on one session that are both in the
    table (and no third entry on that session), whichever is disposed first
    leaves the session alive, disposing the other one deletes it, and both
    orders end in the same state. *)
Theorem dispose_deletes_session_iff_unreferenced :
  (forall (this : TFSavedModel.t) (p : Process),
      TFSavedModel.disposed this = false ->
      exists this' p' calls,
        disposes_live this p this' p' calls /\
        (calls = [TFSavedModel.sessionId this] \/ calls = []) /\
        (calls = [TFSavedModel.sessionId this] <->
         ~ references (loadedSavedModelPathMap p') (TFSavedModel.sessionId this)))
  /\
  (forall (a b : TFSavedModel.t) (p : Process) (s : Z) (ea eb : Loaded.t),
      TFSavedModel.disposed a = false ->
      TFSavedModel.disposed b = false ->
      TFSavedModel.sessionId a = s ->
      TFSavedModel.sessionId b = s ->
      TFSavedModel.jsid a <> TFSavedModel.jsid b ->
      loadedSavedModelPathMap p !! TFSavedModel.jsid a = Some ea ->
      loadedSavedModelPathMap p !! TFSavedModel.jsid b = Some eb ->
      Loaded.sessionId ea = s ->
      Loaded.sessionId eb = s ->
      ~ references (delete (TFSavedModel.jsid b)
                      (delete (TFSavedModel.jsid a) (loadedSavedModelPathMap p))) s ->
      exists a1 b1 p1 p2 b2 a2 q1 q2,
        disposes_live a p a1 p1 [] /\ disposes_live b p1 b1 p2 [s] /\
        disposes_live b p b2 q1 [] /\ disposes_live a q1 a2 q2 [s] /\
        p2 = q2).
Proof.
  split.
  - exact dispose_live.
  - intros a b p s ea eb Ha Hb Hsa Hsb Hne Hea Heb Hsea Hseb Hno.
    destruct (dispose_pair a b p s Ha Hb Hsa Hsb Hne) as (a1 & b1 & p1 & p2 & H1 & H2).
    { exists eb. auto. }
    { exact Hno. }
    destruct (dispose_pair b a p s Hb Ha Hsb Hsa) as (b2 & a2 & q1 & q2 & H3 & H4).
    { congruence. }
    { exists ea. auto. }
    { rewrite delete_delete. exact Hno. }
    exists a1, b1, p1, p2, b2, a2, q1, q2.
    repeat (split; [assumption|]).
    destruct H1 as (_ & _ & M1 & N1 & C1), H2 as (_ & _ & M2 & N2 & C2).
    destruct H3 as (_ & _ & M3 & N3 & C3), H4 as (_ & _ & M4 & N4 & C4).
    destruct p2 as [m2 n2 c2], q2 as [m4 n4 c4]. simpl in *.
    f_equal.
    + rewrite M2, M1, M4, M3. apply delete_delete.
    + congruence.
    + rewrite C2, C1, C4, C3. reflexivity.
Qed.

(** The scenario of two handles on session 7. *)
Lemma dispose_deletes_session_iff_unreferenced_witness :
  (exists this' p' calls, disposes_live handle_A two_sharing this' p' calls) /\
  (exists a1 b1 p1 p2,
      disposes_live handle_A two_sharing a1 p1 [] /\
      disposes_live handle_B p1 b1 p2 [7%Z]).
Proof.
  split.
  - destruct (proj1 dispose_deletes_session_iff_unreferenced handle_A two_sharing
                eq_refl) as (this' & p' & calls & H & _).
    exists this', p', calls. exact H.
  - destruct (proj2 dispose_deletes_session_iff_unreferenced handle_A handle_B
                two_sharing 7%Z (served_on 7) (served_on 7)
                eq_refl eq_refl eq_refl eq_refl)
      as (a1 & b1 & p1 & p2 & _ & _ & _ & _ & H1 & H2 & _).
    + discriminate.
    + reflexivity.
    + reflexivity.
    + reflexivity.
    + reflexivity.
    + apply not_references_scan. vm_compute. reflexivity.
    + exists a1, b1, p1, p2. split; assumption.
Defined.

(** C4.  The first [dispose()] of a live handle returns and leaves the handle
    disposed; from then on every [dispose()] throws
    [Error("This SavedModel has already been deleted.")], whatever the state
    of the process, and leaves the handle disposed and the process as it
    was. *)
Theorem dispose_twice_throws (this : TFSavedModel.t) (p : Process) :
  TFSavedModel.disposed this = false ->
  exists this' p',
    TFSavedModel.dispose this p = (Ret tt, this', p') /\
    TFSavedModel.disposed this' = true /\
    forall q : Process,
      TFSavedModel.dispose this' q =
      (Throw (Error "This SavedModel has already been deleted."), this', q).
Proof.
  intros Hlive. unfold TFSavedModel.dispose at 1. rewrite Hlive. simpl.
  destruct (TFSavedModel.session_still_used _ _);
    eexists _, _; (split; [reflexivity|]); split; reflexivity.
Qed.

Lemma dispose_twice_throws_witness :
  exists this' p',
    TFSavedModel.dispose handle_A two_sharing = (Ret tt, this', p') /\
    TFSavedModel.disposed this' = true /\
    forall q : Process,
      TFSavedModel.dispose this' q =
      (Throw (Error "This SavedModel has already been deleted."), this', q).
Proof.
  apply (dispose_twice_throws handle_A two_sharing). reflexivity.
Defined.

(** ** The resolver *)

Lemma stringArraysHaveSameElements_spec (a b : list string) :
  stringArraysHaveSameElements a b = true <-> same_tag_set a b.
Proof.
  unfold stringArraysHaveSameElements, same_tag_set.
  rewrite !andb_true_iff, Nat.eqb_eq, !forallb_forall.
  assert (Hex : forall (l : list string) (x : string),
             existsb (String.eqb x) l = true <-> In x l).
  { intros l x. rewrite existsb_exists. split.
    - intros (y & Hy & Heq). apply String.eqb_eq in Heq. subst. exact Hy.
    - intros Hx. exists x. split; [exact Hx | apply String.eqb_refl]. }
  split.
  - intros [[Hlen Hab] Hba]. split; [exact Hlen|].
    intros t. split; intros Ht.
    + apply Hex, Hab, Ht.
    + apply Hex, Hba, Ht.
  - intros [Hlen Hmem]. repeat split.
    + exact Hlen.
    + intros x Hx. apply Hex, Hmem, Hx.
    + intros x Hx. apply Hex, Hmem, Hx.
Qed.

Section ResolverFacts.

Variable same : list string -> list string -> bool.

Lemma resolve_skips (before rest : list MetaGraph) (wanted : list string)
    (signature : string) :
  (forall g, In g before -> same wanted (tags g) = false) ->
  getSignatureDefEntryFromMetaGraphInfo same (before ++ rest) wanted signature =
  getSignatureDefEntryFromMetaGraphInfo same rest wanted signature.
Proof.
  induction before as [|g before IH]; intros Hno; simpl.
  - reflexivity.
  - rewrite (Hno g (or_introl eq_refl)). apply IH.
    intros g' Hg'. apply Hno. right. exact Hg'.
Qed.

Lemma resolve_no_match (catalog : list MetaGraph) (wanted : list string)
    (signature : string) :
  (forall g, In g catalog -> same wanted (tags g) = false) ->
  getSignatureDefEntryFromMetaGraphInfo same catalog wanted signature =
  Throw (Error ("The SavedModel does not have tags: " ++ join_comma wanted)).
Proof.
  intros Hno. rewrite <- (app_nil_r catalog).
  rewrite resolve_skips by exact Hno. reflexivity.
Qed.

Lemma resolve_first_match (before after : list MetaGraph) (g : MetaGraph)
    (wanted : list string) (signature : string) :
  (forall g', In g' before -> same wanted (tags g') = false) ->
  same wanted (tags g) = true ->
  getSignatureDefEntryFromMetaGraphInfo same (before ++ g :: after) wanted signature =
  match obj_read (signatureDefs g) signature with
  | Absent => Throw (Error ("The SaveModel does not have signature: " ++ signature))
  | found => Ret found
  end.
Proof.
  intros Hno Hyes. rewrite resolve_skips by exact Hno.
  simpl. rewrite Hyes. reflexivity.
Qed.

End ResolverFacts.

(** C2.  The check of lines 179-181 lets through a name that the matching
    metagraph does not have as a signature when it is the name of a member
    of [Object.prototype]: at the first metagraph whose tags the comparison
    accepts, such a name is not reported as missing; the resolver returns
    the inherited member as if it were the entry. *)
Theorem resolver_returns_inherited_member
    (same : list string -> list string -> bool)
    (before after : list MetaGraph) (g : MetaGraph)
    (wanted : list string) (signature : string) :
  (forall g', In g' before -> same wanted (tags g') = false) ->
  same wanted (tags g) = true ->
  ~ In signature (obj_keys (signatureDefs g)) ->
  is_prototype_member signature = true ->
  getSignatureDefEntryFromMetaGraphInfo same (before ++ g :: after) wanted signature =
  Ret (Inherited signature).
Proof.
  intros Hno Hyes Hnin Hmem.
  rewrite (resolve_first_match same before after g wanted signature Hno Hyes).
  unfold obj_read. apply obj_get_None_keys in Hnin. rewrite Hnin, Hmem.
  reflexivity.
Qed.

(** In the catalog of section 8, whose only signature is [predict], the
    signature [constructor] requested with the tags [serve] is answered with
    the member [constructor] of [Object.prototype]. *)
Lemma resolver_returns_inherited_member_witness :
  ~ In "constructor" (obj_keys [("predict", predict_entry)]) /\
  getSignatureDefEntryFromMetaGraphInfo stringArraysHaveSameElements
    serve_catalog ["serve"] "constructor" = Ret (Inherited "constructor").
Proof.
  assert (Hnin : ~ In "constructor" (obj_keys [("predict", predict_entry)])).
  { simpl. intros [H|[]]. discriminate H. }
  split; [exact Hnin|].
  apply (resolver_returns_inherited_member stringArraysHaveSameElements [] []
           {| tags := ["serve"]; signatureDefs := [("predict", predict_entry)] |}
           ["serve"] "constructor").
  - intros g' [].
  - reflexivity.
  - exact Hnin.
  - reflexivity.
Defined.

(** ** The extractor *)

Ltac unbind H :=
  unfold mbind, outcome_bind, mret, outcome_ret in H; simpl in H.

Lemma pbmap_get_Some_keys {A} (m : PbMap A) (k : string) (v : A) :
  pbmap_get m k = Some v -> In k (pbmap_keys m).
Proof.
  unfold pbmap_get, pbmap_keys. intros H.
  destruct (in_dec string_dec k (map fst m)) as [Hin|Hnin]; [exact Hin|].
  apply (obj_get_None_keys m k) in Hnin. congruence.
Qed.

Section ExtractorFacts.

Variable DataType : JsObject Z.
Variable mapTFDtypeToJSDtype : JsKey -> outcome string.

Let loop := signatureDefs_loop DataType mapTFDtypeToJSDtype.
Let entry_of := signatureDefEntry_of DataType mapTFDtypeToJSDtype.

(** What the loop over the signature keys leaves under a key [k]: the
    converted entry when [k] is one of the keys and not the reserved one,
    and what was there before otherwise. *)
Lemma signatureDefs_loop_get (m : PbMap SignatureDefProto) (keys : list string) :
  forall (acc result : SignatureDef),
    loop m keys acc = Ret result ->
    forall k,
      (In k keys /\ k <> SAVED_MODEL_INIT_OP_KEY /\
       exists sig entry,
         pbmap_get m k = Some sig /\ entry_of sig = Ret entry /\
         obj_get result k = Some entry)
      \/
      (~ (In k keys /\ k <> SAVED_MODEL_INIT_OP_KEY) /\
       obj_get result k = obj_get acc k).
Proof.
  subst loop entry_of.
  induction keys as [|key rest IH]; intros acc result H k; simpl in H.
  - injection H as <-. right. split; [intros [[] _] | reflexivity].
  - destruct (String.eqb key SAVED_MODEL_INIT_OP_KEY) eqn:E.
    + apply String.eqb_eq in E. subst key.
      destruct (IH acc result H k) as [(Hin & Hne & Hex)|(Hn & Hget)].
      * left. split; [right; exact Hin | split; assumption].
      * right. split; [|exact Hget].
        intros [[Heq|Hin] Hne]; [congruence | apply Hn; split; assumption].
    + apply String.eqb_neq in E.
      destruct (pbmap_get m key) as [sig|] eqn:G; [|discriminate].
      destruct (signatureDefEntry_of DataType mapTFDtypeToJSDtype sig)
        as [entry|e] eqn:F; unbind H; [|discriminate].
      destruct (IH _ result H k) as [(Hin & Hne & Hex)|(Hn & Hget)].
      * left. split; [right; exact Hin | split; assumption].
      * rewrite obj_get_set in Hget.
        destruct (String.eqb key k) eqn:Ek.
        -- apply String.eqb_eq in Ek. subst k.
           left. split; [left; reflexivity|]. split; [exact E|].
           exists sig, entry. auto.
        -- apply String.eqb_neq in Ek. right. split; [|exact Hget].
           intros [[Heq|Hin] Hne]; [congruence | apply Hn; split; assumption].
Qed.

(** The reserved key makes no difference to the loop: dropping its entries
    from the signature map gives the same outcome. *)
Lemma signatureDefs_loop_without_init_op (m : PbMap SignatureDefProto)
    (acc : SignatureDef) :
  loop m (pbmap_keys m) acc =
  loop (without_init_op m) (pbmap_keys (without_init_op m)) acc.
Proof.
  subst loop entry_of.
  assert (Hget : forall k, k <> SAVED_MODEL_INIT_OP_KEY ->
             pbmap_get (without_init_op m) k = pbmap_get m k).
  { intros k Hk. unfold pbmap_get, without_init_op.
    induction m as [|[k0 v] m IHm]; simpl; [reflexivity|].
    destruct (String.eqb k0 SAVED_MODEL_INIT_OP_KEY) eqn:E0; simpl.
    - apply String.eqb_eq in E0. subst k0.
      destruct (String.eqb SAVED_MODEL_INIT_OP_KEY k) eqn:E1; [|exact IHm].
      apply String.eqb_eq in E1. congruence.
    - rewrite IHm. reflexivity. }
  assert (Hkeys : pbmap_keys (without_init_op m) =
                  List.filter (fun k => negb (String.eqb k SAVED_MODEL_INIT_OP_KEY))
                    (pbmap_keys m)).
  { unfold pbmap_keys, without_init_op. clear Hget.
    induction m as [|[k0 v] m IHm]; simpl; [reflexivity|].
    destruct (String.eqb k0 SAVED_MODEL_INIT_OP_KEY); simpl; congruence. }
  rewrite Hkeys. generalize (pbmap_keys m) as keys. intros keys. revert acc.
  induction keys as [|key rest IH]; intros acc; simpl; [reflexivity|].
  destruct (String.eqb key SAVED_MODEL_INIT_OP_KEY) eqn:E; simpl.
  - apply IH.
  - rewrite E. apply String.eqb_neq in E. rewrite (Hget key E).
    destruct (pbmap_get m key) as [sig|]; [|reflexivity].
    destruct (signatureDefEntry_of DataType mapTFDtypeToJSDtype sig);
      unfold mbind, outcome_bind; simpl; [apply IH | reflexivity].
Qed.

Lemma metaGraph_of_without_init_op (m : MetaGraphDefProto) :
  metaGraph_of DataType mapTFDtypeToJSDtype m =
  metaGraph_of DataType mapTFDtypeToJSDtype (metaGraph_without_init_op m).
Proof.
  unfold metaGraph_of. simpl.
  destruct (getMetaInfoDef m); [|reflexivity].
  fold loop. rewrite signatureDefs_loop_without_init_op. reflexivity.
Qed.

Lemma metaGraphs_loop_without_init_op (l : list MetaGraphDefProto) :
  forall acc,
    metaGraphs_loop DataType mapTFDtypeToJSDtype l acc =
    metaGraphs_loop DataType mapTFDtypeToJSDtype
      (map metaGraph_without_init_op l) acc.
Proof.
  induction l as [|m l IH]; intros acc; simpl; [reflexivity|].
  rewrite <- metaGraph_of_without_init_op.
  destruct (metaGraph_of DataType mapTFDtypeToJSDtype m);
    unfold mbind, outcome_bind; simpl; [apply IH | reflexivity].
Qed.

Lemma metaGraph_of_extracted (m : MetaGraphDefProto) (g : MetaGraph) :
  metaGraph_of DataType mapTFDtypeToJSDtype m = Ret g ->
  extracted_from DataType mapTFDtypeToJSDtype m g.
Proof.
  unfold metaGraph_of. fold loop.
  destruct (getMetaInfoDef m) as [metaInfoDef|] eqn:M; [|discriminate].
  destruct (loop (getSignatureDefMap m) (pbmap_keys (getSignatureDefMap m)) [])
    as [sd|e] eqn:L; intros H; unbind H; [|discriminate].
  injection H as <-. unfold extracted_from. simpl.
  pose proof (signatureDefs_loop_get _ _ _ _ L) as Hk.
  split; [rewrite M; reflexivity|]. split; [|split].
  - intros Hin. apply (obj_get_None_keys sd) in Hin; [exact Hin|].
    destruct (Hk SAVED_MODEL_INIT_OP_KEY) as [(_ & Hne & _)|(_ & Hget)];
      [congruence | exact Hget].
  - intros key Hin.
    destruct (Hk key) as [(Hkeys & _)|(_ & Hget)]; [exact Hkeys|].
    exfalso. apply (obj_get_None_keys sd key); assumption.
  - intros key sig Hne Hsig.
    destruct (Hk key) as [(_ & _ & sig' & entry & Hs & He & Hg)|(Hn & _)].
    + unfold entry_of in He. exists entry. split; [congruence | exact Hg].
    + exfalso. apply Hn. split; [|exact Hne].
      apply (pbmap_get_Some_keys _ _ _ Hsig).
Qed.

Lemma metaGraphs_loop_extracted (l : list MetaGraphDefProto) :
  forall acc result,
    metaGraphs_loop DataType mapTFDtypeToJSDtype l acc = Ret result ->
    exists produced,
      result = (acc ++ produced)%list /\ Forall2 (extracted_from DataType mapTFDtypeToJSDtype) l produced.
Proof.
  induction l as [|m l IH]; intros acc result H; simpl in H.
  - injection H as <-. exists []. rewrite app_nil_r. split; constructor.
  - destruct (metaGraph_of DataType mapTFDtypeToJSDtype m) as [g|e] eqn:G;
      unbind H; [|discriminate].
    destruct (IH _ _ H) as (produced & -> & Hall).
    exists (g :: produced). rewrite <- app_assoc. split; [reflexivity|].
    constructor; [apply metaGraph_of_extracted; exact G | exact Hall].
Qed.

End ExtractorFacts.

(** C8.  The extractor skips the signature stored under
    [__saved_model_init_op]: removing that entry from every metagraph of the
    message changes nothing to what the extractor does, and in a catalog it
    returns each metagraph has the tags of its source, never the reserved
    key, only keys of its source, and under every other key of its source
    the converted entry. *)
Theorem extractor_skips_init_op (DataType : JsObject Z)
    (mapTFDtypeToJSDtype : JsKey -> outcome string)
    (modelMessage : SavedModelProto) :
  metaGraphsOfMessage DataType mapTFDtypeToJSDtype modelMessage =
  metaGraphsOfMessage DataType mapTFDtypeToJSDtype
    {| getMetaGraphsList :=
         map metaGraph_without_init_op (getMetaGraphsList modelMessage) |}
  /\
  forall result,
    metaGraphsOfMessage DataType mapTFDtypeToJSDtype modelMessage = Ret result ->
    Forall2 (extracted_from DataType mapTFDtypeToJSDtype)
      (getMetaGraphsList modelMessage) result.
Proof.
  unfold metaGraphsOfMessage. simpl. split.
  - apply metaGraphs_loop_without_init_op.
  - intros result H.
    destruct (metaGraphs_loop_extracted _ _ _ _ _ H) as (produced & -> & Hall).
    exact Hall.
Qed.

(** The model [serve_message]: its initializer signature, whose tensor would
    not pass the dtype mapping, is left out, and [predict] is kept. *)
Lemma extractor_skips_init_op_witness :
  metaGraphsOfMessage DataType_sample mapper_sample serve_message =
  Ret [ {| tags := ["serve"];
           signatureDefs :=
             [("predict", predict_extracted (JString "DT_FLOAT") "float32")] |} ]
  /\
  Forall2 (extracted_from DataType_sample mapper_sample)
    (getMetaGraphsList serve_message)
    [ {| tags := ["serve"];
         signatureDefs :=
           [("predict", predict_extracted (JString "DT_FLOAT") "float32")] |} ].
Proof.
  split.
  - reflexivity.
  - apply (proj2 (extractor_skips_init_op DataType_sample mapper_sample serve_message)).
    reflexivity.
Defined.

(** C3.  The extractor at [predict_message], for any enumeration and any
    dtype mapping: the input tensor [x] gets its name [input_x:0] and its
    shape, while the output tensor [y], whose name is [out:0], gets its
    dimension list as [name] and no [shape]. *)
Theorem extractor_output_name_is_dimension_list (DataType : JsObject Z)
    (mapTFDtypeToJSDtype : JsKey -> outcome string) :
  metaGraphsOfMessage DataType mapTFDtypeToJSDtype predict_message =
  (d ← mapTFDtypeToJSDtype (getEnumKeyFromValue DataType 1%Z);
   Ret [ {| tags := ["serve"];
            signatureDefs :=
              [("predict",
                predict_extracted (getEnumKeyFromValue DataType 1%Z) d)] |} ])
  /\
  forall (key : JsKey) (d : string),
    (exists x, obj_get (inputs (predict_extracted key d)) "x" = Some x /\
               name x = NameString "input_x:0" /\
               shape x = Some [(-1)%Z; 4%Z]) /\
    (exists y, obj_get (outputs (predict_extracted key d)) "y" = Some y /\
               name y = NameDims [(-1)%Z; 1%Z] /\
               name y <> NameString "out:0" /\
               shape y = None).
Proof.
  split.
  - unfold metaGraphsOfMessage, predict_message. simpl.
    unfold metaGraph_of. simpl. unfold signatureDefEntry_of. simpl.
    destruct (mapTFDtypeToJSDtype (getEnumKeyFromValue DataType 1%Z)) as [d|e] eqn:E;
      unfold mbind, outcome_bind; simpl; rewrite ?E; reflexivity.
  - intros key d. split; eexists; simpl; repeat split; discriminate.
Qed.

(** ** The reverse lookup of the dtype enumeration *)

Lemma getEnumKeyFromValue_undefined (object : JsObject Z) (value : Z) :
  getEnumKeyFromValue object value = JUndefined <->
  forall key, In key (obj_keys object) -> obj_get object key <> Some value.
Proof.
  unfold getEnumKeyFromValue.
  destruct (find _ (obj_keys object)) as [key|] eqn:F.
  - split; [discriminate|]. intros Hall. exfalso.
    apply find_some in F. destruct F as [Hin Hv].
    apply (Hall key Hin).
    destruct (obj_get object key) as [v|]; [|discriminate].
    apply Z.eqb_eq in Hv. congruence.
  - split; [|reflexivity]. intros _ key Hin Hget.
    pose proof (find_none _ _ F key Hin) as Hf. simpl in Hf.
    rewrite Hget, Z.eqb_refl in Hf. discriminate.
Qed.

Lemma getEnumKeyFromValue_found (object : JsObject Z) (value : Z) (key : string) :
  getEnumKeyFromValue object value = JString key ->
  In key (obj_keys object) /\ obj_get object key = Some value.
Proof.
  unfold getEnumKeyFromValue.
  destruct (find _ (obj_keys object)) as [k|] eqn:F; [|discriminate].
  intros H. injection H as <-. apply find_some in F. destruct F as [Hin Hv].
  split; [exact Hin|].
  destruct (obj_get object k) as [v|]; [|discriminate].
  apply Z.eqb_eq in Hv. congruence.
Qed.

(** C10, as the code has it.  [getEnumKeyFromValue] never fails: it returns a
    key of the enumeration whose value is the code, and [undefined] exactly
    when no key has that value.  The extractor hands that result, name or
    [undefined], to [mapTFDtypeToJSDtype] without a check: the conversion of
    a tensor with that code, input or output, fails exactly when
    [mapTFDtypeToJSDtype] fails on it, with that function's error, and takes
    its [dtype] from that function otherwise. *)
Theorem dtype_lookup_is_unchecked (object : JsObject Z) (value : Z) :
  (getEnumKeyFromValue object value = JUndefined <->
   forall key, In key (obj_keys object) -> obj_get object key <> Some value)
  /\
  (forall key, getEnumKeyFromValue object value = JString key ->
               In key (obj_keys object) /\ obj_get object key = Some value)
  /\
  (forall (mapTFDtypeToJSDtype : JsKey -> outcome string)
          (k n : string) (dims : list Z),
      match mapTFDtypeToJSDtype (getEnumKeyFromValue object value) with
      | Throw e =>
          inputs_loop object mapTFDtypeToJSDtype [(k, tensor value n dims)] [k] []
          = Throw e /\
          outputs_loop object mapTFDtypeToJSDtype [(k, tensor value n dims)] [k] []
          = Throw e
      | Ret d =>
          (exists info,
              inputs_loop object mapTFDtypeToJSDtype
                [(k, tensor value n dims)] [k] [] = Ret [(k, info)] /\
              dtype info = d) /\
          (exists info,
              outputs_loop object mapTFDtypeToJSDtype
                [(k, tensor value n dims)] [k] [] = Ret [(k, info)] /\
              dtype info = d)
      end).
Proof.
  split; [apply getEnumKeyFromValue_undefined|].
  split; [apply getEnumKeyFromValue_found|].
  intros mapper k n dims. simpl. unfold pbmap_get. simpl.
  rewrite String.eqb_refl. simpl.
  destruct (mapper (getEnumKeyFromValue object value)) as [d|e];
    unfold mbind, outcome_bind; simpl.
  - split; eexists; split; reflexivity.
  - split; reflexivity.
Qed.

(** In [DataType_sample] the code 1 is looked up as [DT_FLOAT]. *)
Lemma dtype_lookup_is_unchecked_witness :
  In "DT_FLOAT" (obj_keys DataType_sample) /\
  obj_get DataType_sample "DT_FLOAT" = Some 1%Z.
Proof.
  apply (proj1 (proj2 (dtype_lookup_is_unchecked DataType_sample 1%Z)) "DT_FLOAT").
  reflexivity.
Defined.

(** The code 99 has no name in [DataType_sample]: the lookup returns
    [undefined] as an ordinary result, and a tensor with that code is
    converted without any error when [mapTFDtypeToJSDtype] lets [undefined]
    through.  It is not so that a code without a name makes the conversion
    fail whatever [mapTFDtypeToJSDtype] does. *)
Lemma unknown_dtype_code_yields_undefined :
  (forall key, In key (obj_keys DataType_sample) ->
               obj_get DataType_sample key <> Some 99%Z) /\
  getEnumKeyFromValue DataType_sample 99%Z = JUndefined /\
  inputs_loop DataType_sample (fun _ => Ret "float32")
    [("x", tensor 99 "t:0" [])] ["x"] [] =
  Ret [("x", {| dtype := "float32"; tfDtype := JUndefined;
                tfDtkype := JUndefined;
                name := NameString "t:0"; shape := Some [] |})] /\
  ~ (forall (object : JsObject Z) (mapTFDtypeToJSDtype : JsKey -> outcome string)
            (value : Z) (k n : string) (dims : list Z),
        (forall key, In key (obj_keys object) -> obj_get object key <> Some value) ->
        exists e,
          inputs_loop object mapTFDtypeToJSDtype [(k, tensor value n dims)] [k] [] =
          Throw e).
Proof.
  assert (Hnone : forall key, In key (obj_keys DataType_sample) ->
                    obj_get DataType_sample key <> Some 99%Z).
  { apply getEnumKeyFromValue_undefined. reflexivity. }
  split; [exact Hnone|]. split; [reflexivity|]. split; [reflexivity|].
  intros Hall.
  destruct (Hall DataType_sample (fun _ => Ret "float32") 99%Z "x" "t:0" [] Hnone)
    as (e & He).
  discriminate He.
Qed.

(** ** Reading the descriptor file *)

(** C9.  [readSavedModelProto] first checks read access to
    [path + "/saved_model.pb"].  When the file is missing or unreadable it
    throws [Error("There is no saved_model.pb file in the directory: " +
    path)] in place of the system error, and nothing is read or
    deserialized; when the file is readable it goes on to read it and to
    deserialize its bytes, and the result is the deserializer's. *)
Theorem readSavedModelProto_checks_access
    (deserializeBinary : list Byte.byte -> outcome SavedModelProto)
    (fs : FileSystem) (path : string) :
  (fs (path ++ SAVED_MODEL_FILE_NAME) = NoEntry \/
   fs (path ++ SAVED_MODEL_FILE_NAME) = NoReadPermission ->
   readSavedModelProto deserializeBinary fs path =
   (Throw (Error ("There is no saved_model.pb file in the directory: " ++ path)),
    [EvAccess (path ++ SAVED_MODEL_FILE_NAME)]))
  /\
  (forall content,
      fs (path ++ SAVED_MODEL_FILE_NAME) = ReadableFile content ->
      readSavedModelProto deserializeBinary fs path =
      (deserializeBinary content,
       [EvAccess (path ++ SAVED_MODEL_FILE_NAME);
        EvReadFile (path ++ SAVED_MODEL_FILE_NAME);
        EvDeserialize content])).
Proof.
  unfold readSavedModelProto, readSavedModelProto_tail, accessSync, readFile.
  split.
  - intros [H|H]; rewrite H; reflexivity.
  - intros content H. rewrite H. reflexivity.
Qed.

Lemma readSavedModelProto_checks_access_witness :
  readSavedModelProto deserialize_sample fs_sample "/missing" =
  (Throw (Error "There is no saved_model.pb file in the directory: /missing"),
   [EvAccess "/missing/saved_model.pb"]) /\
  readSavedModelProto deserialize_sample fs_sample "/locked" =
  (Throw (Error "There is no saved_model.pb file in the directory: /locked"),
   [EvAccess "/locked/saved_model.pb"]) /\
  readSavedModelProto deserialize_sample fs_sample "/m" =
  (Ret serve_message,
   [EvAccess "/m/saved_model.pb"; EvReadFile "/m/saved_model.pb";
    EvDeserialize [Byte.x0a]]).
Proof.
  split; [|split].
  - apply (proj1 (readSavedModelProto_checks_access deserialize_sample fs_sample
                    "/missing")).
    left. reflexivity.
  - apply (proj1 (readSavedModelProto_checks_access deserialize_sample fs_sample
                    "/locked")).
    right. reflexivity.
  - apply (proj2 (readSavedModelProto_checks_access deserialize_sample fs_sample
                    "/m") [Byte.x0a]).
    reflexivity.
Defined.

(** ** Stripping the suffix [:0] *)

Lemma append_colon0_longer (b : string) : (b ++ ":0") <> "0".
Proof. destruct b as [|c [|c' b]]; simpl; discriminate. Qed.

Lemma replace_colon0_at_end_strips (b : string) :
  replace_colon0_at_end (b ++ ":0") = b.
Proof.
  induction b as [|c b IH].
  - reflexivity.
  - change (String c b ++ ":0") with (String c (b ++ ":0")).
    cbn [replace_colon0_at_end].
    destruct (String.eqb (String c (b ++ ":0")) ":0") eqn:E.
    + apply String.eqb_eq in E. injection E as _ E.
      exfalso. apply (append_colon0_longer b). exact E.
    + rewrite IH. reflexivity.
Qed.

Lemma ends_with_colon0_iff (s : string) :
  ends_with_colon0 s = true <-> exists b, s = b ++ ":0".
Proof.
  induction s as [|c s IH].
  - simpl. split; [discriminate|]. intros ([|c b] & H); discriminate.
  - cbn [ends_with_colon0]. rewrite orb_true_iff, IH. split.
    + intros [H|(b & ->)].
      * apply String.eqb_eq in H. exists "". exact H.
      * exists (String c b). reflexivity.
    + intros ([|c' b] & H).
      * left. apply String.eqb_eq. exact H.
      * right. injection H as _ ->. exists b. reflexivity.
Qed.

Lemma replace_colon0_at_end_keeps (s : string) :
  ends_with_colon0 s = false -> replace_colon0_at_end s = s.
Proof.
  induction s as [|c s IH]; [reflexivity|].
  cbn [ends_with_colon0 replace_colon0_at_end].
  intros H. apply orb_false_iff in H. destruct H as [H1 H2].
  rewrite H1, IH by exact H2. reflexivity.
Qed.

Lemma append_cons (x : ascii) (a b : string) :
  (String x a ++ b) = String x (a ++ b).
Proof. reflexivity. Qed.

Lemma append_assoc (a b c : string) : ((a ++ b) ++ c) = (a ++ (b ++ c)).
Proof.
  induction a as [|x a IH]; [reflexivity|].
  rewrite !append_cons, IH. reflexivity.
Qed.

Lemma append_colon0_inj (a b : string) : (a ++ ":0") = (b ++ ":0") -> a = b.
Proof.
  revert b. induction a as [|x a IH]; intros [|y b] H.
  - reflexivity.
  - rewrite append_cons in H. injection H as <- H.
    exfalso. apply (append_colon0_longer b). symmetry. exact H.
  - rewrite append_cons in H. injection H as -> H.
    exfalso. apply (append_colon0_longer a). exact H.
  - rewrite !append_cons in H. injection H as -> H. f_equal. apply IH. exact H.
Qed.

(** The stripped name still ends with [:0] exactly when the name ended with
    [:0:0]. *)
Lemma ends_with_colon0_after_replace (s : string) :
  ends_with_colon0 (replace_colon0_at_end s) = true <->
  exists b, s = b ++ ":0:0".
Proof.
  destruct (ends_with_colon0 s) eqn:E.
  - apply ends_with_colon0_iff in E. destruct E as (b & ->).
    rewrite replace_colon0_at_end_strips, ends_with_colon0_iff. split.
    + intros (b' & ->). exists b'. rewrite append_assoc. reflexivity.
    + intros (b' & H). exists b'. apply append_colon0_inj.
      rewrite H, append_assoc. reflexivity.
  - rewrite replace_colon0_at_end_keeps, E by exact E. split; [discriminate|].
    intros (b & ->).
    assert (Ht : ends_with_colon0 (b ++ ":0:0") = true).
    { apply ends_with_colon0_iff. exists (b ++ ":0").
      rewrite append_assoc. reflexivity. }
    congruence.
Qed.

(** ** The accessors *)

Lemma set_name_same (info : ModelTensorInfo) : set_name info (name info) = info.
Proof. destruct info. reflexivity. Qed.

Lemma strip_name_0 (n : NameSlot) : strip_name 0 n = n.
Proof. destruct n; reflexivity. Qed.

(** What [forEach] leaves at a location, whether or not it ran to the end:
    the object that was there, its name stripped once for each of the [k]
    visits made to it. *)
Lemma forEach_strip_lookup (results : list loc) :
  forall (hp hp' : Heap) (r : outcome unit),
    forEach_strip results hp = (r, hp') ->
    length hp' = length hp /\
    forall l info,
      hp !! l = Some info ->
      exists k,
        (k <= count_occ Nat.eq_dec results l)%nat /\
        (r = Ret tt -> k = count_occ Nat.eq_dec results l) /\
        hp' !! l = Some (set_name info (strip_name k (name info))).
Proof.
  induction results as [|l0 rest IH]; intros hp hp' r H; simpl in H.
  - injection H as <- <-. split; [reflexivity|]. intros l info Hl.
    exists 0%nat. rewrite strip_name_0, set_name_same. simpl. auto.
  - assert (Hstop : forall e, (Throw e, hp) = (r, hp') ->
              length hp' = length hp /\
              forall l info, hp !! l = Some info ->
                exists k, (k <= count_occ Nat.eq_dec (l0 :: rest) l)%nat /\
                  (r = Ret tt -> k = count_occ Nat.eq_dec (l0 :: rest) l) /\
                  hp' !! l = Some (set_name info (strip_name k (name info)))).
    { intros e He. injection He as <- <-. split; [reflexivity|].
      intros l info Hl. exists 0%nat.
      rewrite strip_name_0, set_name_same.
      split; [lia|]. split; [discriminate | exact Hl]. }
    destruct (hp !! l0) as [info0|] eqn:E0; [|exact (Hstop _ H)].
    destruct (name info0) as [s0|dims] eqn:N0; [|exact (Hstop _ H)].
    clear Hstop.
    destruct (IH _ _ _ H) as [Hlen Hall].
    rewrite length_insert in Hlen. split; [exact Hlen|].
    intros l info Hl.
    destruct (Nat.eq_dec l0 l) as [->|Hne].
    + assert (info = info0) by congruence. subst info.
      destruct (Hall l (set_name info0 (NameString (replace_colon0_at_end s0))))
        as (k & Hle & Hret & Hk).
      { apply list_lookup_insert_eq. apply (lookup_lt_Some _ _ _ E0). }
      exists (S k). rewrite count_occ_cons_eq by reflexivity.
      split; [lia|]. split; [intros Hr; rewrite (Hret Hr); reflexivity|].
      pose proof (Nat.iter_succ_r k replace_colon0_at_end s0) as Hiter.
      rewrite Hk, N0. simpl in *. rewrite Hiter. reflexivity.
    + destruct (Hall l info) as (k & Hle & Hret & Hk).
      { rewrite list_lookup_insert_ne by exact Hne. exact Hl. }
      exists k. rewrite count_occ_cons_neq by exact Hne. auto.
Qed.

Lemma string_named_insert (hp : Heap) (l0 l : loc) (info0 : ModelTensorInfo)
    (s0 s1 : string) :
  hp !! l0 = Some info0 -> name info0 = NameString s0 ->
  string_named (<[l0 := set_name info0 (NameString s1)]> hp) l <->
  string_named hp l.
Proof.
  intros E0 N0. unfold string_named.
  destruct (Nat.eq_dec l0 l) as [->|Hne].
  - rewrite list_lookup_insert_eq by (apply (lookup_lt_Some _ _ _ E0)).
    split; intros _; eauto.
  - rewrite list_lookup_insert_ne by exact Hne. reflexivity.
Qed.

(** [forEach] runs to the end exactly when every listed object exists and
    has a string for a name. *)
Lemma forEach_strip_returns (results : list loc) :
  forall hp : Heap,
    (exists hp', forEach_strip results hp = (Ret tt, hp')) <->
    (forall l, In l results -> string_named hp l).
Proof.
  induction results as [|l0 rest IH]; intros hp; simpl.
  - split; [intros _ l [] | eauto].
  - destruct (hp !! l0) as [info0|] eqn:E0.
    + destruct (name info0) as [s0|dims] eqn:N0.
      * rewrite IH. split.
        -- intros Hall l [<-|Hin].
           ++ exists info0, s0. auto.
           ++ apply (string_named_insert hp l0 l info0 s0
                       (replace_colon0_at_end s0) E0 N0), Hall, Hin.
        -- intros Hall l Hin.
           apply (string_named_insert hp l0 l info0 s0
                    (replace_colon0_at_end s0) E0 N0), Hall. auto.
      * split.
        -- intros (hp' & H). discriminate.
        -- intros Hall. destruct (Hall l0 (or_introl eq_refl)) as (i & s & Hi & Hs).
           congruence.
    + split.
      * intros (hp' & H). discriminate.
      * intros Hall. destruct (Hall l0 (or_introl eq_refl)) as (i & s & Hi & Hs).
        congruence.
Qed.

(** With no suffix left to strip, [forEach] leaves the heap as it is. *)
Lemma forEach_strip_nothing_to_strip (results : list loc) (hp : Heap) :
  (forall l, In l results -> string_named hp l) ->
  (forall l info s, In l results -> hp !! l = Some info ->
                    name info = NameString s -> ends_with_colon0 s = false) ->
  forEach_strip results hp = (Ret tt, hp).
Proof.
  induction results as [|l0 rest IH]; intros Hnamed Hclean; simpl.
  - reflexivity.
  - destruct (Hnamed l0 (or_introl eq_refl)) as (info0 & s0 & E0 & N0).
    rewrite E0, N0.
    rewrite (replace_colon0_at_end_keeps s0)
      by exact (Hclean l0 info0 s0 (or_introl eq_refl) E0 N0).
    rewrite <- N0, set_name_same, list_insert_id by exact E0.
    apply IH.
    + intros l Hin. apply Hnamed. right. exact Hin.
    + intros l info s Hin. apply Hclean. right. exact Hin.
Qed.

Lemma accessor_returns (entries : JsObject loc) (hp hp' : Heap) (r : list loc) :
  TFSavedModel.accessor entries hp = (Ret r, hp') <->
  r = obj_values entries /\
  forEach_strip (obj_values entries) hp = (Ret tt, hp').
Proof.
  unfold TFSavedModel.accessor.
  destruct (forEach_strip (obj_values entries) hp) as [[[]|e] h] eqn:E.
  - split.
    + intros H. injection H as <- <-. auto.
    + intros [-> H]. injection H as <-. reflexivity.
  - split; [discriminate | intros [_ H]; discriminate].
Qed.

Lemma accessor_heap (entries : JsObject loc) (hp hp' : Heap)
    (r : outcome (list loc)) :
  TFSavedModel.accessor entries hp = (r, hp') ->
  exists u,
    forEach_strip (obj_values entries) hp = (u, hp') /\
    (forall r', r = Ret r' -> u = Ret tt).
Proof.
  unfold TFSavedModel.accessor.
  destruct (forEach_strip (obj_values entries) hp) as [[[]|e] h] eqn:E;
    intros H; injection H as <- <-; eexists; split; try reflexivity.
  intros r' Hr. discriminate Hr.
Qed.

Lemma accessor_renames (entries : JsObject loc) (hp hp' : Heap)
    (r : outcome (list loc)) :
  TFSavedModel.accessor entries hp = (r, hp') ->
  renames_stored_records (obj_values entries) r hp hp'.
Proof.
  intros H. destruct (accessor_heap _ _ _ _ H) as (u & Hu & Hret).
  destruct (forEach_strip_lookup _ _ _ _ Hu) as [Hlen Hall].
  split; [exact Hlen|]. intros l info Hl.
  destruct (Hall l info Hl) as (k & Hle & Hk & Hlook).
  exists k. split; [exact Hlook|]. split; [exact Hle|].
  intros r' Hr. apply Hk. exact (Hret r' Hr).
Qed.

Lemma accessor_strips_once (entries : JsObject loc) (hp hp' : Heap)
    (results : list loc) :
  TFSavedModel.accessor entries hp = (Ret results, hp') ->
  List.NoDup results ->
  forall l, In l results ->
    exists info s,
      hp !! l = Some info /\
      name info = NameString s /\
      hp' !! l = Some (set_name info (NameString (replace_colon0_at_end s))).
Proof.
  intros H Hnd l Hin. apply accessor_returns in H. destruct H as [-> H].
  assert (Hnamed : string_named hp l).
  { apply (proj1 (forEach_strip_returns (obj_values entries) hp));
      [eauto | exact Hin]. }
  destruct Hnamed as (info & s & Hl & Hs).
  destruct (forEach_strip_lookup _ _ _ _ H) as [_ Hall].
  destruct (Hall l info Hl) as (k & _ & Hk & Hlook).
  specialize (Hk eq_refl).
  rewrite (proj1 (NoDup_count_occ' Nat.eq_dec _) Hnd l Hin) in Hk. subst k.
  exists info, s. rewrite Hlook, Hs. auto.
Qed.

Lemma accessor_twice (entries : JsObject loc) :
  returns_same_sequence_twice entries (TFSavedModel.accessor entries).
Proof.
  split.
  { intros hp Hnamed.
    destruct (proj2 (forEach_strip_returns (obj_values entries) hp) Hnamed)
      as (hp1 & H1).
    exists hp1. apply accessor_returns. auto. }
  intros hp r1 hp1 H. apply accessor_returns in H. destruct H as [-> H].
  assert (Hnamed1 : forall l, In l (obj_values entries) -> string_named hp1 l).
  { intros l Hin.
    destruct (proj1 (forEach_strip_returns (obj_values entries) hp)
                (ex_intro _ hp1 H) l Hin)
      as (info & s & Hl & Hs).
    destruct (forEach_strip_lookup _ _ _ _ H) as [_ Hall].
    destruct (Hall l info Hl) as (k & _ & _ & Hk).
    eexists _, _. split; [exact Hk|]. rewrite Hs. reflexivity. }
  destruct (proj2 (forEach_strip_returns (obj_values entries) hp1) Hnamed1)
    as (hp2 & H2).
  exists hp2.
  split; [apply accessor_returns; auto|].
  intros Hclean.
  rewrite (forEach_strip_nothing_to_strip _ _ Hnamed1 Hclean) in H2.
  injection H2 as <-. split; reflexivity.
Qed.

Lemma accessor_listed_renamed (entries : JsObject loc) (hp hp' : Heap)
    (r : list loc) :
  TFSavedModel.accessor entries hp = (Ret r, hp') ->
  forall l, In l r ->
    exists info s,
      hp !! l = Some info /\
      name info = NameString s /\
      (1 <= count_occ Nat.eq_dec r l)%nat /\
      hp' !! l =
      Some (set_name info
              (NameString
                 (Nat.iter (count_occ Nat.eq_dec r l) replace_colon0_at_end s))).
Proof.
  intros H l Hin. apply accessor_returns in H. destruct H as [-> H].
  destruct (proj1 (forEach_strip_returns (obj_values entries) hp)
              (ex_intro _ hp' H) l Hin) as (info & s & Hl & Hs).
  destruct (forEach_strip_lookup _ _ _ _ H) as [_ Hall].
  destruct (Hall l info Hl) as (k & _ & Hk & Hlook).
  exists info, s. split; [exact Hl|]. split; [exact Hs|]. split.
  - apply (count_occ_In Nat.eq_dec). exact Hin.
  - rewrite Hlook, (Hk eq_refl), Hs. reflexivity.
Qed.

(** C5, as the code has it.  Each accessor strips one trailing [:0] from the
    name of every tensor it returns (each listed once) and leaves a name
    without that suffix as it is: [output:0] becomes [output] and [output]
    stays.  The surfaced name still ends with [:0] exactly when the stored
    name ended with [:0:0]. *)
Theorem accessor_strips_one_suffix :
  replace_colon0_at_end "output:0" = "output" /\
  replace_colon0_at_end "output" = "output" /\
  (forall b, replace_colon0_at_end (b ++ ":0") = b) /\
  (forall s, ends_with_colon0 s = false -> replace_colon0_at_end s = s) /\
  forall (this : TFSavedModel.t) (hp hp' : Heap) (results : list loc),
    TFSavedModel.inputs this hp = (Ret results, hp') \/
    TFSavedModel.outputs this hp = (Ret results, hp') ->
    List.NoDup results ->
    forall l, In l results ->
      exists info s,
        hp !! l = Some info /\
        name info = NameString s /\
        hp' !! l = Some (set_name info (NameString (replace_colon0_at_end s))) /\
        (ends_with_colon0 (replace_colon0_at_end s) = true <->
         exists b, s = b ++ ":0:0").
Proof.
  split; [reflexivity|]. split; [reflexivity|].
  split; [exact replace_colon0_at_end_strips|].
  split; [exact replace_colon0_at_end_keeps|].
  intros this hp hp' results H Hnd l Hin.
  assert (Hacc : exists entries,
             TFSavedModel.accessor entries hp = (Ret results, hp')).
  { destruct H as [H|H]; eexists; exact H. }
  destruct Hacc as (entries & Hacc).
  destruct (accessor_strips_once _ _ _ _ Hacc Hnd l Hin) as (info & s & Hl & Hs & Hl').
  exists info, s. repeat (split; [assumption|]).
  apply ends_with_colon0_after_replace.
Qed.

(** The outputs [output:0] and [output] are both surfaced as [output]. *)
Lemma accessor_strips_one_suffix_witness :
  TFSavedModel.outputs output_handle output_heap =
  (Ret [0%nat; 1%nat], [named "output"; named "output"]) /\
  exists info s,
    output_heap !! 0%nat = Some info /\
    name info = NameString s /\
    snd (TFSavedModel.outputs output_handle output_heap) !! 0%nat =
    Some (set_name info (NameString (replace_colon0_at_end s))).
Proof.
  split; [reflexivity|].
  destruct (proj2 (proj2 (proj2 (proj2 accessor_strips_one_suffix)))
              output_handle output_heap [named "output"; named "output"]
              [0%nat; 1%nat] (or_intror eq_refl)) with (l := 0%nat)
    as (info & s & Hl & Hs & Hl' & _).
  - repeat constructor; simpl; intuition discriminate.
  - left. reflexivity.
  - exists info, s. auto.
Defined.

(** A tensor named [a:0:0] is surfaced as [a:0], which ends with [:0]: it is
    not so that no surfaced name ends with [:0]. *)
Lemma surfaced_name_still_suffixed :
  TFSavedModel.inputs twice_suffixed_handle twice_suffixed_heap =
  (Ret [0%nat], [named "a:0"]) /\
  ends_with_colon0 "a:0" = true /\
  ~ (forall (this : TFSavedModel.t) (hp hp' : Heap) (results : list loc)
            (l : loc) (info : ModelTensorInfo) (s : string),
        TFSavedModel.inputs this hp = (Ret results, hp') ->
        In l results -> hp' !! l = Some info -> name info = NameString s ->
        ends_with_colon0 s = false).
Proof.
  split; [reflexivity|]. split; [reflexivity|].
  intros Hall.
  specialize (Hall twice_suffixed_handle twice_suffixed_heap [named "a:0"]
                [0%nat] 0%nat (named "a:0") "a:0" eq_refl
                (or_introl eq_refl) eq_refl eq_refl).
  discriminate Hall.
Qed.

(** C6, as the code has it.  [inputs] returns whenever the names of its
    tensors are strings (it throws otherwise).  When a call returns, the next
    call returns too, with the same sequence of [ModelTensorInfo] objects;
    and when no returned name ends with [:0] after the first call, the second
    call changes no object, so that the sequences read at the two returns are
    equal.  The same holds for [outputs]. *)
Theorem accessors_return_same_sequence_twice (this : TFSavedModel.t) :
  returns_same_sequence_twice (inputs_of (TFSavedModel.signature this))
    (TFSavedModel.inputs this) /\
  returns_same_sequence_twice (outputs_of (TFSavedModel.signature this))
    (TFSavedModel.outputs this).
Proof. split; apply accessor_twice. Qed.

Lemma accessors_return_same_sequence_twice_witness :
  TFSavedModel.inputs predict_handle predict_heap =
  (Ret [0%nat], [set_name input_x (NameString "input_x")]) /\
  exists hp2,
    TFSavedModel.inputs predict_handle [set_name input_x (NameString "input_x")] =
    (Ret [0%nat], hp2) /\
    hp2 = [set_name input_x (NameString "input_x")] /\
    read_all hp2 [0%nat] =
    read_all [set_name input_x (NameString "input_x")] [0%nat].
Proof.
  split; [reflexivity|].
  destruct (proj2 (proj1 (accessors_return_same_sequence_twice predict_handle))
              predict_heap [0%nat] [set_name input_x (NameString "input_x")]
              eq_refl) as (hp2 & H2 & Hclean).
  exists hp2. split; [exact H2|].
  apply Hclean.
  intros l info s [<-|[]] Hl Hs.
  injection Hl as <-. injection Hs as <-. reflexivity.
Defined.

(** A tensor named [a:0:0]: the first call returns it named [a:0], the second
    call returns the same object named [a]; what is read at the two returns
    differs. *)
Lemma second_call_reads_another_name :
  TFSavedModel.inputs twice_suffixed_handle twice_suffixed_heap =
  (Ret [0%nat], [named "a:0"]) /\
  TFSavedModel.inputs twice_suffixed_handle [named "a:0"] =
  (Ret [0%nat], [named "a"]) /\
  read_all [named "a:0"] [0%nat] <> read_all [named "a"] [0%nat] /\
  ~ (forall (this : TFSavedModel.t) (hp hp1 hp2 : Heap) (r1 r2 : list loc),
        TFSavedModel.inputs this hp = (Ret r1, hp1) ->
        TFSavedModel.inputs this hp1 = (Ret r2, hp2) ->
        read_all hp1 r1 = read_all hp2 r2).
Proof.
  split; [reflexivity|]. split; [reflexivity|]. split; [discriminate|].
  intros Hall.
  specialize (Hall twice_suffixed_handle twice_suffixed_heap
                [named "a:0"] [named "a"] [0%nat] [0%nat] eq_refl eq_refl).
  discriminate Hall.
Qed.

(** C7, as the code has it.  An accessor assigns to the [name] of the
    [ModelTensorInfo] objects of the map it reads: when it returns, the name
    of every listed object has been put through [replace(/:0$/, '')], once
    for each time the object is listed, in the stored object itself.
    Nothing else changes, whether the accessor returns or throws: no object
    appears or disappears, the other properties of every object stay, and an
    object that is not in the map read stays as it is. *)
Theorem accessors_rename_stored_records (this : TFSavedModel.t) (hp : Heap) :
  (forall r hp',
      TFSavedModel.inputs this hp = (r, hp') ->
      renames_stored_records
        (obj_values (inputs_of (TFSavedModel.signature this))) r hp hp') /\
  (forall r hp',
      TFSavedModel.outputs this hp = (r, hp') ->
      renames_stored_records
        (obj_values (outputs_of (TFSavedModel.signature this))) r hp hp') /\
  (forall r hp',
      TFSavedModel.inputs this hp = (Ret r, hp') \/
      TFSavedModel.outputs this hp = (Ret r, hp') ->
      forall l, In l r ->
        exists info s,
          hp !! l = Some info /\
          name info = NameString s /\
          (1 <= count_occ Nat.eq_dec r l)%nat /\
          hp' !! l =
          Some (set_name info
                  (NameString
                     (Nat.iter (count_occ Nat.eq_dec r l)
                        replace_colon0_at_end s)))).
Proof.
  split; [|split].
  - intros r hp'. apply accessor_renames.
  - intros r hp'. apply accessor_renames.
  - intros r hp' [H|H]; exact (accessor_listed_renamed _ _ _ _ H).
Qed.

(** Reading [inputs] of the handle on [predict_entry]: the stored record at
    location 0, named [input_x:0], is named [input_x] afterwards. *)
Lemma accessors_rename_stored_records_witness :
  renames_stored_records [0%nat] (Ret [0%nat]) predict_heap
    [set_name input_x (NameString "input_x")] /\
  exists info s,
    predict_heap !! 0%nat = Some info /\
    name info = NameString s /\
    (1 <= count_occ Nat.eq_dec [0%nat] 0%nat)%nat /\
    [set_name input_x (NameString "input_x")] !! 0%nat =
    Some (set_name info
            (NameString
               (Nat.iter (count_occ Nat.eq_dec [0%nat] 0%nat)
                  replace_colon0_at_end s))).
Proof.
  destruct (accessors_rename_stored_records predict_handle predict_heap)
    as (Hin & _ & Hlisted).
  split.
  - apply (Hin (Ret [0%nat])). reflexivity.
  - apply (Hlisted [0%nat] [set_name input_x (NameString "input_x")]
             (or_introl eq_refl) 0%nat).
    left. reflexivity.
Defined.

(** Reading [inputs] of the handle on [predict_entry] rewrites the stored
    name [input_x:0] to [input_x]: it is not so that the accessor leaves the
    stored records as they were. *)
Lemma accessor_rewrites_stored_name :
  predict_heap = [input_x] /\
  name input_x = NameString "input_x:0" /\
  TFSavedModel.inputs predict_handle predict_heap =
  (Ret [0%nat], [set_name input_x (NameString "input_x")]) /\
  ~ (forall (this : TFSavedModel.t) (hp hp' : Heap) (r : outcome (list loc)),
        TFSavedModel.inputs this hp = (r, hp') -> hp' = hp).
Proof.
  split; [reflexivity|]. split; [reflexivity|]. split; [reflexivity|].
  intros Hall.
  specialize (Hall predict_handle predict_heap
                [set_name input_x (NameString "input_x")] (Ret [0%nat]) eq_refl).
  discriminate Hall.
Qed.

(** A handle on what the extractor produced for [predict_proto]: the name of
    its output is a dimension list, and [outputs] throws on it. *)
Example outputs_of_extracted_signature_throws :
  let '(sig, hp) :=
    store_entry (predict_extracted (JString "DT_FLOAT") "float32") [] in
  TFSavedModel.outputs (TFSavedModel.new 7 0 sig) hp =
  (Throw (TypeError "info.name.replace is not a function"), hp).
Proof. reflexivity. Qed.

(** * Further properties *)

(** ** [getEnumKeyFromValue] *)

Lemma find_first {A} (f : A -> bool) (l : list A) (x : A) :
  find f l = Some x ->
  exists pre post,
    l = (pre ++ x :: post)%list /\ f x = true /\
    forall y, In y pre -> f y = false.
Proof.
  induction l as [|a l IH]; simpl; [discriminate|].
  destruct (f a) eqn:Fa.
  - intros H. injection H as <-. exists [], l.
    split; [reflexivity|]. split; [exact Fa | intros y []].
  - intros H. destruct (IH H) as (pre & post & -> & Fx & Hpre).
    exists (a :: pre), post. split; [reflexivity|]. split; [exact Fx|].
    intros y [<-|Hy]; [exact Fa | apply Hpre, Hy].
Qed.

(** X1.  When several keys of the enumeration have the value looked up,
    [getEnumKeyFromValue] returns the first of them in the order of
    [Object.keys]: no key listed before the returned one has that value. *)
Theorem getEnumKeyFromValue_first_key (object : JsObject Z) (value : Z)
    (key : string) :
  getEnumKeyFromValue object value = JString key ->
  exists pre post,
    obj_keys object = (pre ++ key :: post)%list /\
    obj_get object key = Some value /\
    forall k, In k pre -> obj_get object k <> Some value.
Proof.
  unfold getEnumKeyFromValue.
  destruct (find _ (obj_keys object)) as [k0|] eqn:F; [|discriminate].
  intros H. injection H as ->.
  destruct (find_first _ _ _ F) as (pre & post & Hk & Hv & Hpre).
  exists pre, post. split; [exact Hk|]. split.
  - destruct (obj_get object key) as [v|]; [|discriminate].
    apply Z.eqb_eq in Hv. congruence.
  - intros k Hin Hget. specialize (Hpre k Hin). simpl in Hpre.
    rewrite Hget, Z.eqb_refl in Hpre. discriminate.
Qed.

Lemma getEnumKeyFromValue_first_key_witness :
  getEnumKeyFromValue DataType_aliased 1%Z = JString "DT_FLOAT" /\
  exists pre post,
    obj_keys DataType_aliased = (pre ++ "DT_FLOAT" :: post)%list /\
    obj_get DataType_aliased "DT_FLOAT" = Some 1%Z /\
    forall k, In k pre -> obj_get DataType_aliased k <> Some 1%Z.
Proof.
  split; [reflexivity|].
  apply (getEnumKeyFromValue_first_key DataType_aliased 1%Z "DT_FLOAT").
  reflexivity.
Defined.

Lemma obj_get_In {A} (o : JsObject A) (k : string) (v : A) :
  obj_get o k = Some v -> In (k, v) o.
Proof.
  induction o as [|[k0 w] o IH]; simpl; [discriminate|].
  destruct (String.eqb k0 k) eqn:E.
  - apply String.eqb_eq in E. subst k0. intros H. injection H as ->. auto.
  - auto.
Qed.

Lemma distinct_values_one_key {A} (o : JsObject A) (k1 k2 : string) (v : A) :
  List.NoDup (map snd o) -> In (k1, v) o -> In (k2, v) o -> k1 = k2.
Proof.
  induction o as [|[k0 w] o IH]; simpl; [intros _ []|].
  intros Hnd H1 H2. inversion Hnd as [|? ? Hnin Hnd']; subst.
  assert (Hsnd : forall k, In (k, v) o -> In v (map snd o)).
  { intros k Hk. apply (in_map snd) in Hk. exact Hk. }
  destruct H1 as [H1|H1], H2 as [H2|H2].
  - congruence.
  - injection H1 as -> ->. exfalso. apply Hnin, (Hsnd k2), H2.
  - injection H2 as -> ->. exfalso. apply Hnin, (Hsnd k1), H1.
  - apply IH; assumption.
Qed.

(** X2.  In an enumeration whose values are pairwise distinct, the reverse
    lookup undoes the lookup: the key found for the value of [key] is [key]
    itself. *)
Theorem getEnumKeyFromValue_round_trip (object : JsObject Z) (key : string)
    (value : Z) :
  List.NoDup (map snd object) ->
  obj_get object key = Some value ->
  getEnumKeyFromValue object value = JString key.
Proof.
  intros Hnd Hget.
  destruct (getEnumKeyFromValue object value) as [|k'] eqn:E.
  - exfalso.
    apply (proj1 (getEnumKeyFromValue_undefined object value) E key);
      [|exact Hget].
    destruct (in_dec string_dec key (obj_keys object)) as [Hin|Hnin];
      [exact Hin|].
    apply (obj_get_None_keys object key) in Hnin. congruence.
  - f_equal. apply getEnumKeyFromValue_found in E. destruct E as [_ Hget'].
    apply (distinct_values_one_key object k' key value Hnd);
      apply obj_get_In; assumption.
Qed.

Lemma getEnumKeyFromValue_round_trip_witness :
  getEnumKeyFromValue DataType_sample 3%Z = JString "DT_INT32".
Proof.
  apply (getEnumKeyFromValue_round_trip DataType_sample "DT_INT32" 3%Z).
  - simpl. repeat constructor; simpl; intuition discriminate.
  - reflexivity.
Defined.

(** ** The conversion of the tensors of a signature *)

Lemma obj_set_new {A} (o : JsObject A) (k : string) (v : A) :
  ~ In k (obj_keys o) -> obj_set o k v = (o ++ [(k, v)])%list.
Proof.
  unfold obj_keys. induction o as [|[k0 w] o IH]; simpl; intros Hnin.
  - reflexivity.
  - destruct (String.eqb k0 k) eqn:E.
    + apply String.eqb_eq in E. subst k0. exfalso. apply Hnin. auto.
    + rewrite IH; [reflexivity|]. intros Hin. apply Hnin. auto.
Qed.

Lemma NoDup_keys_step {A} (acc : JsObject A) (k : string) (v : A)
    (ks : list string) :
  List.NoDup (obj_keys acc ++ k :: ks)%list ->
  ~ In k (obj_keys acc) /\
  List.NoDup (obj_keys (acc ++ [(k, v)]) ++ ks)%list.
Proof.
  intros Hnd. split.
  - apply NoDup_remove_2 in Hnd. intros Hin. apply Hnd.
    apply in_or_app. auto.
  - unfold obj_keys in *. rewrite map_app, <- app_assoc. exact Hnd.
Qed.

Section TensorLoops.

Variable DataType : JsObject Z.
Variable mapTFDtypeToJSDtype : JsKey -> outcome string.

Lemma inputs_loop_appends (m : PbMap TensorInfoProto) (ks : list string) :
  forall acc result,
    List.NoDup (obj_keys acc ++ ks)%list ->
    inputs_loop DataType mapTFDtypeToJSDtype m ks acc = Ret result ->
    exists added,
      result = (acc ++ added)%list /\
      Forall2 (converted_from DataType mapTFDtypeToJSDtype input_info_of m)
        ks added.
Proof.
  induction ks as [|k ks IH]; intros acc result Hnd H; simpl in H.
  - injection H as <-. exists []. rewrite app_nil_r. split; constructor.
  - destruct (pbmap_get m k) as [t|] eqn:G; [|discriminate].
    destruct (mapTFDtypeToJSDtype (getEnumKeyFromValue DataType (getDtype t)))
      as [d|e] eqn:D; unbind H; [|discriminate].
    destruct (getTensorShape t) as [tensorShape|] eqn:S; [|discriminate].
    destruct (NoDup_keys_step acc k
                (input_info_of DataType t (getDimList tensorShape) d) ks Hnd)
      as [Hnin Hnd'].
    fold (input_info_of DataType t (getDimList tensorShape) d) in H.
    rewrite (obj_set_new acc k _ Hnin) in H.
    destruct (IH _ _ Hnd' H) as (added & -> & Hall).
    exists ((k, input_info_of DataType t (getDimList tensorShape) d) :: added).
    rewrite <- app_assoc. split; [reflexivity|].
    constructor; [|exact Hall].
    split; [reflexivity|]. exists t, tensorShape, d. auto.
Qed.

Lemma outputs_loop_appends (m : PbMap TensorInfoProto) (ks : list string) :
  forall acc result,
    List.NoDup (obj_keys acc ++ ks)%list ->
    outputs_loop DataType mapTFDtypeToJSDtype m ks acc = Ret result ->
    exists added,
      result = (acc ++ added)%list /\
      Forall2 (converted_from DataType mapTFDtypeToJSDtype output_info_of m)
        ks added.
Proof.
  induction ks as [|k ks IH]; intros acc result Hnd H; simpl in H.
  - injection H as <-. exists []. rewrite app_nil_r. split; constructor.
  - destruct (pbmap_get m k) as [t|] eqn:G; [|discriminate].
    destruct (mapTFDtypeToJSDtype (getEnumKeyFromValue DataType (getDtype t)))
      as [d|e] eqn:D; unbind H; [|discriminate].
    destruct (getTensorShape t) as [tensorShape|] eqn:S; [|discriminate].
    destruct (NoDup_keys_step acc k
                (output_info_of DataType t (getDimList tensorShape) d) ks Hnd)
      as [Hnin Hnd'].
    fold (output_info_of DataType t (getDimList tensorShape) d) in H.
    rewrite (obj_set_new acc k _ Hnin) in H.
    destruct (IH _ _ Hnd' H) as (added & -> & Hall).
    exists ((k, output_info_of DataType t (getDimList tensorShape) d) :: added).
    rewrite <- app_assoc. split; [reflexivity|].
    constructor; [|exact Hall].
    split; [reflexivity|]. exists t, tensorShape, d. auto.
Qed.

End TensorLoops.

(** X3.  For a signature whose tensor maps have distinct keys, none of them
    integer-like or [__proto__], a converted entry lists the tensors in the
    order in which the protobuf maps yield their keys, under the same keys.
    An input gets the enum key of its dtype as [tfDtkype] and no [tfDtype],
    what [mapTFDtypeToJSDtype] makes of that key as [dtype], its own name,
    and its dimension list, unknown sizes included, as [shape]; an output
    gets the same [dtype], the enum key as [tfDtype], its dimension list as
    [name], and no [shape]. *)
Theorem signatureDefEntry_of_tensors (DataType : JsObject Z)
    (mapTFDtypeToJSDtype : JsKey -> outcome string)
    (sig : SignatureDefProto) (entry : SignatureDefEntry) :
  List.NoDup (pbmap_keys (getInputsMap sig)) ->
  List.NoDup (pbmap_keys (getOutputsMap sig)) ->
  forallb plain_key (pbmap_keys (getInputsMap sig)) = true ->
  forallb plain_key (pbmap_keys (getOutputsMap sig)) = true ->
  signatureDefEntry_of DataType mapTFDtypeToJSDtype sig = Ret entry ->
  Forall2 (converted_from DataType mapTFDtypeToJSDtype input_info_of
             (getInputsMap sig))
    (pbmap_keys (getInputsMap sig)) (inputs entry) /\
  Forall2 (converted_from DataType mapTFDtypeToJSDtype output_info_of
             (getOutputsMap sig))
    (pbmap_keys (getOutputsMap sig)) (outputs entry).
Proof.
  intros Hin Hout _ _ H. unfold signatureDefEntry_of in H.
  destruct (inputs_loop DataType mapTFDtypeToJSDtype (getInputsMap sig)
              (pbmap_keys (getInputsMap sig)) []) as [ins|e] eqn:I;
    unbind H; [|discriminate].
  destruct (outputs_loop DataType mapTFDtypeToJSDtype (getOutputsMap sig)
              (pbmap_keys (getOutputsMap sig)) []) as [outs|e] eqn:O;
    unbind H; [|discriminate].
  injection H as <-. simpl.
  destruct (inputs_loop_appends DataType mapTFDtypeToJSDtype (getInputsMap sig)
              (pbmap_keys (getInputsMap sig)) [] ins Hin I) as (a & -> & Ha).
  destruct (outputs_loop_appends DataType mapTFDtypeToJSDtype (getOutputsMap sig)
              (pbmap_keys (getOutputsMap sig)) [] outs Hout O) as (b & -> & Hb).
  split; assumption.
Qed.

Lemma signatureDefEntry_of_tensors_witness :
  Forall2 (converted_from DataType_sample mapper_sample input_info_of
             (getInputsMap predict_proto))
    ["x"] (inputs (predict_extracted (JString "DT_FLOAT") "float32")) /\
  Forall2 (converted_from DataType_sample mapper_sample output_info_of
             (getOutputsMap predict_proto))
    ["y"] (outputs (predict_extracted (JString "DT_FLOAT") "float32")).
Proof.
  apply (signatureDefEntry_of_tensors DataType_sample mapper_sample predict_proto
           (predict_extracted (JString "DT_FLOAT") "float32")).
  - repeat constructor. simpl. intuition.
  - repeat constructor. simpl. intuition.
  - reflexivity.
  - reflexivity.
  - reflexivity.
Defined.

(** ** When the extractor returns *)

Lemma pbmap_keys_get {A} (m : PbMap A) (k : string) :
  In k (pbmap_keys m) -> exists v, pbmap_get m k = Some v.
Proof.
  unfold pbmap_get, pbmap_keys. intros Hin.
  destruct (obj_get m k) as [v|] eqn:E; [eauto|].
  apply (obj_get_None_keys m k) in E. contradiction.
Qed.

Section ExtractorReturns.

Variable DataType : JsObject Z.
Variable mapTFDtypeToJSDtype : JsKey -> outcome string.

Lemma inputs_loop_returns (m : PbMap TensorInfoProto) (ks : list string) :
  forall acc,
    (forall k, In k ks -> In k (pbmap_keys m)) ->
    (exists r, inputs_loop DataType mapTFDtypeToJSDtype m ks acc = Ret r) <->
    (forall k t, In k ks -> pbmap_get m k = Some t ->
                 tensor_converts DataType mapTFDtypeToJSDtype t).
Proof.
  induction ks as [|k ks IH]; intros acc Hks; simpl.
  - split; [intros _ k t [] | eauto].
  - destruct (pbmap_keys_get m k (Hks k (or_introl eq_refl))) as (t & G).
    rewrite G.
    assert (Hstop : forall c : outcome (JsObject ModelTensorInfo),
               (forall r, c <> Ret r) ->
               ~ tensor_converts DataType mapTFDtypeToJSDtype t ->
               (exists r, c = Ret r) <->
               (forall k' t', k = k' \/ In k' ks -> pbmap_get m k' = Some t' ->
                              tensor_converts DataType mapTFDtypeToJSDtype t')).
    { intros c Hc Hn. split.
      - intros (r & Hr). exfalso. exact (Hc r Hr).
      - intros Hall. exfalso. apply Hn.
        exact (Hall k t (or_introl eq_refl) G). }
    destruct (mapTFDtypeToJSDtype (getEnumKeyFromValue DataType (getDtype t)))
      as [d|e] eqn:D; unfold mbind, outcome_bind; simpl.
    + destruct (getTensorShape t) as [tensorShape|] eqn:S.
      * rewrite IH by (intros k' Hk'; apply Hks; right; exact Hk'). split.
        -- intros Hall k' t' [<-|Hin] G'.
           ++ assert (t' = t) by congruence. subst t'.
              split; [exists d; exact D | exists tensorShape; exact S].
           ++ apply (Hall k' t' Hin G').
        -- intros Hall k' t' Hin. apply Hall. right. exact Hin.
      * apply Hstop; [discriminate|].
        intros (_ & tensorShape & Hs). congruence.
    + apply Hstop; [discriminate|].
      intros ((d & Hd) & _). congruence.
Qed.

Lemma outputs_loop_returns (m : PbMap TensorInfoProto) (ks : list string) :
  forall acc,
    (forall k, In k ks -> In k (pbmap_keys m)) ->
    (exists r, outputs_loop DataType mapTFDtypeToJSDtype m ks acc = Ret r) <->
    (forall k t, In k ks -> pbmap_get m k = Some t ->
                 tensor_converts DataType mapTFDtypeToJSDtype t).
Proof.
  induction ks as [|k ks IH]; intros acc Hks; simpl.
  - split; [intros _ k t [] | eauto].
  - destruct (pbmap_keys_get m k (Hks k (or_introl eq_refl))) as (t & G).
    rewrite G.
    assert (Hstop : forall c : outcome (JsObject ModelTensorInfo),
               (forall r, c <> Ret r) ->
               ~ tensor_converts DataType mapTFDtypeToJSDtype t ->
               (exists r, c = Ret r) <->
               (forall k' t', k = k' \/ In k' ks -> pbmap_get m k' = Some t' ->
                              tensor_converts DataType mapTFDtypeToJSDtype t')).
    { intros c Hc Hn. split.
      - intros (r & Hr). exfalso. exact (Hc r Hr).
      - intros Hall. exfalso. apply Hn.
        exact (Hall k t (or_introl eq_refl) G). }
    destruct (mapTFDtypeToJSDtype (getEnumKeyFromValue DataType (getDtype t)))
      as [d|e] eqn:D; unfold mbind, outcome_bind; simpl.
    + destruct (getTensorShape t) as [tensorShape|] eqn:S.
      * rewrite IH by (intros k' Hk'; apply Hks; right; exact Hk'). split.
        -- intros Hall k' t' [<-|Hin] G'.
           ++ assert (t' = t) by congruence. subst t'.
              split; [exists d; exact D | exists tensorShape; exact S].
           ++ apply (Hall k' t' Hin G').
        -- intros Hall k' t' Hin. apply Hall. right. exact Hin.
      * apply Hstop; [discriminate|].
        intros (_ & tensorShape & Hs). congruence.
    + apply Hstop; [discriminate|].
      intros ((d & Hd) & _). congruence.
Qed.

Lemma signatureDefEntry_of_returns (sig : SignatureDefProto) :
  (exists entry, signatureDefEntry_of DataType mapTFDtypeToJSDtype sig = Ret entry)
  <-> signature_converts DataType mapTFDtypeToJSDtype sig.
Proof.
  unfold signatureDefEntry_of, signature_converts.
  pose proof (inputs_loop_returns (getInputsMap sig)
                (pbmap_keys (getInputsMap sig)) [] (fun k H => H)) as Hi.
  pose proof (outputs_loop_returns (getOutputsMap sig)
                (pbmap_keys (getOutputsMap sig)) [] (fun k H => H)) as Ho.
  split.
  - intros (entry & H).
    destruct (inputs_loop _ _ _ _ _) as [ins|e]; unbind H; [|discriminate].
    destruct (outputs_loop _ _ _ _ _) as [outs|e]; unbind H; [|discriminate].
    split; intros k t G.
    + apply (proj1 Hi (ex_intro _ ins eq_refl) k t);
        [apply (pbmap_get_Some_keys _ _ _ G) | exact G].
    + apply (proj1 Ho (ex_intro _ outs eq_refl) k t);
        [apply (pbmap_get_Some_keys _ _ _ G) | exact G].
  - intros [Hins Houts].
    destruct (proj2 Hi (fun k t _ G => Hins k t G)) as (ins & ->).
    destruct (proj2 Ho (fun k t _ G => Houts k t G)) as (outs & ->).
    unfold mbind, outcome_bind. simpl. eauto.
Qed.

Lemma signatureDefs_loop_returns (m : PbMap SignatureDefProto)
    (ks : list string) :
  forall acc,
    (forall k, In k ks -> In k (pbmap_keys m)) ->
    (exists r, signatureDefs_loop DataType mapTFDtypeToJSDtype m ks acc = Ret r)
    <->
    (forall k sig, In k ks -> k <> SAVED_MODEL_INIT_OP_KEY ->
                   pbmap_get m k = Some sig ->
                   signature_converts DataType mapTFDtypeToJSDtype sig).
Proof.
  induction ks as [|k ks IH]; intros acc Hks; simpl.
  - split; [intros _ k sig [] | eauto].
  - assert (Hks' : forall k', In k' ks -> In k' (pbmap_keys m))
      by (intros k' Hk'; apply Hks; right; exact Hk').
    destruct (String.eqb k SAVED_MODEL_INIT_OP_KEY) eqn:E.
    + apply String.eqb_eq in E. subst k. rewrite IH by exact Hks'. split.
      * intros Hall k' sig [<-|Hin] Hne G; [congruence | eauto].
      * intros Hall k' sig Hin. apply Hall. right. exact Hin.
    + apply String.eqb_neq in E.
      destruct (pbmap_keys_get m k (Hks k (or_introl eq_refl))) as (sig & G).
      rewrite G.
      destruct (signatureDefEntry_of DataType mapTFDtypeToJSDtype sig)
        as [entry|e] eqn:S; unfold mbind, outcome_bind; simpl.
      * rewrite IH by exact Hks'. split.
        -- intros Hall k' sig' [<-|Hin] Hne G'.
           ++ assert (sig' = sig) by congruence. subst sig'.
              apply signatureDefEntry_of_returns. eauto.
           ++ apply (Hall k' sig' Hin Hne G').
        -- intros Hall k' sig' Hin. apply Hall. right. exact Hin.
      * split.
        -- intros (r & Hr). discriminate.
        -- intros Hall.
           specialize (Hall k sig (or_introl eq_refl) E G).
           apply signatureDefEntry_of_returns in Hall.
           destruct Hall as (entry & Hentry). congruence.
Qed.

Lemma metaGraph_of_returns (m : MetaGraphDefProto) :
  (exists g, metaGraph_of DataType mapTFDtypeToJSDtype m = Ret g) <->
  metagraph_converts DataType mapTFDtypeToJSDtype m.
Proof.
  unfold metaGraph_of, metagraph_converts.
  pose proof (signatureDefs_loop_returns (getSignatureDefMap m)
                (pbmap_keys (getSignatureDefMap m)) [] (fun k H => H)) as Hl.
  destruct (getMetaInfoDef m) as [metaInfoDef|].
  - split.
    + intros (g & H). split; [eauto|]. intros key sig Hne G.
      destruct (signatureDefs_loop _ _ _ _ _) as [sd|e]; unbind H; [|discriminate].
      apply (proj1 Hl (ex_intro _ sd eq_refl) key sig);
        [apply (pbmap_get_Some_keys _ _ _ G) | exact Hne | exact G].
    + intros [_ Hall].
      destruct (proj2 Hl (fun k sig _ Hne G => Hall k sig Hne G)) as (sd & ->).
      unfold mbind, outcome_bind. simpl. eauto.
  - split.
    + intros (g & H). discriminate.
    + intros [(metaInfoDef & H) _]. discriminate.
Qed.

Lemma metaGraphs_loop_returns (l : list MetaGraphDefProto) :
  forall acc,
    (exists r, metaGraphs_loop DataType mapTFDtypeToJSDtype l acc = Ret r) <->
    Forall (metagraph_converts DataType mapTFDtypeToJSDtype) l.
Proof.
  induction l as [|m l IH]; intros acc; simpl.
  - split; [constructor | eauto].
  - destruct (metaGraph_of DataType mapTFDtypeToJSDtype m) as [g|e] eqn:G;
      unfold mbind, outcome_bind; simpl.
    + rewrite IH. split.
      * intros Hall. constructor; [|exact Hall].
        apply metaGraph_of_returns. eauto.
      * intros Hall. inversion Hall. assumption.
    + split.
      * intros (r & Hr). discriminate.
      * intros Hall. inversion Hall as [|? ? Hm _]; subst.
        apply metaGraph_of_returns in Hm. destruct Hm as (g & Hg). congruence.
Qed.

Lemma signatureDefs_loop_keys (m : PbMap SignatureDefProto) (ks : list string) :
  forall acc result,
    List.NoDup (obj_keys acc ++ kept_keys ks)%list ->
    signatureDefs_loop DataType mapTFDtypeToJSDtype m ks acc = Ret result ->
    obj_keys result = (obj_keys acc ++ kept_keys ks)%list.
Proof.
  induction ks as [|k ks IH]; intros acc result Hnd H; simpl in H.
  - injection H as <-. simpl. rewrite app_nil_r. reflexivity.
  - unfold kept_keys in *. simpl in *.
    destruct (String.eqb k SAVED_MODEL_INIT_OP_KEY) eqn:E; simpl in *.
    + apply IH; assumption.
    + destruct (pbmap_get m k) as [sig|]; [|discriminate].
      destruct (signatureDefEntry_of DataType mapTFDtypeToJSDtype sig)
        as [entry|e]; unbind H; [|discriminate].
      destruct (NoDup_keys_step acc k entry _ Hnd) as [Hnin Hnd'].
      rewrite (obj_set_new acc k entry Hnin) in H.
      rewrite (IH _ _ Hnd' H). unfold obj_keys.
      rewrite map_app, <- app_assoc. reflexivity.
Qed.

End ExtractorReturns.

(** X4.  For a metagraph whose signature map has distinct keys, none of them
    integer-like or [__proto__], the keys of [signatureDefs], in the order of
    [Object.keys], are the keys that the signature map yields, in that
    order, the reserved key left out. *)
Theorem metaGraph_of_keys_in_order (DataType : JsObject Z)
    (mapTFDtypeToJSDtype : JsKey -> outcome string)
    (m : MetaGraphDefProto) (g : MetaGraph) :
  List.NoDup (pbmap_keys (getSignatureDefMap m)) ->
  forallb plain_key (pbmap_keys (getSignatureDefMap m)) = true ->
  metaGraph_of DataType mapTFDtypeToJSDtype m = Ret g ->
  obj_keys (signatureDefs g) = kept_keys (pbmap_keys (getSignatureDefMap m)).
Proof.
  intros Hnd _ H. unfold metaGraph_of in H.
  destruct (getMetaInfoDef m) as [metaInfoDef|]; [|discriminate].
  destruct (signatureDefs_loop DataType mapTFDtypeToJSDtype (getSignatureDefMap m)
              (pbmap_keys (getSignatureDefMap m)) []) as [sd|e] eqn:L;
    unbind H; [|discriminate].
  injection H as <-. simpl.
  apply (signatureDefs_loop_keys DataType mapTFDtypeToJSDtype
           (getSignatureDefMap m) (pbmap_keys (getSignatureDefMap m)) [] sd);
    [|exact L].
  simpl. unfold kept_keys. apply List.NoDup_filter. exact Hnd.
Qed.

Lemma metaGraph_of_keys_in_order_witness :
  obj_keys [("predict", predict_extracted (JString "DT_FLOAT") "float32")] =
  kept_keys ["__saved_model_init_op"; "predict"].
Proof.
  apply (metaGraph_of_keys_in_order DataType_sample mapper_sample
           {| getMetaInfoDef := Some {| getTagsList := ["serve"] |};
              getSignatureDefMap :=
                [("__saved_model_init_op", init_op_proto);
                 ("predict", predict_proto)] |}
           {| tags := ["serve"];
              signatureDefs :=
                [("predict", predict_extracted (JString "DT_FLOAT") "float32")] |}).
  - repeat constructor; simpl; intuition discriminate.
  - reflexivity.
  - reflexivity.
Defined.

(** X5.  The extractor returns a catalog exactly when every metagraph has its
    meta information set and, in every signature other than the reserved
    one, every input and output tensor has its shape set and a dtype for
    which [mapTFDtypeToJSDtype] answers.  The tensors of the reserved
    signature are never looked at. *)
Theorem metaGraphsOfMessage_returns (DataType : JsObject Z)
    (mapTFDtypeToJSDtype : JsKey -> outcome string)
    (modelMessage : SavedModelProto) :
  (exists result,
      metaGraphsOfMessage DataType mapTFDtypeToJSDtype modelMessage = Ret result)
  <->
  Forall (metagraph_converts DataType mapTFDtypeToJSDtype)
    (getMetaGraphsList modelMessage).
Proof. unfold metaGraphsOfMessage. apply metaGraphs_loop_returns. Qed.

Lemma metaGraphsOfMessage_returns_witness :
  Forall (metagraph_converts DataType_sample mapper_sample)
    (getMetaGraphsList serve_message).
Proof.
  apply (proj1 (metaGraphsOfMessage_returns DataType_sample mapper_sample
                  serve_message)).
  eexists. reflexivity.
Defined.

(** ** What the resolver's result says about the catalog *)

Lemma resolver_messages_differ (a b : string) :
  ("The SaveModel does not have signature: " ++ a) <>
  ("The SavedModel does not have tags: " ++ b).
Proof. intros H. vm_compute in H. discriminate H. Qed.

(** X6.  With any comparison of tag lists: a value returned by the resolver
    was read under the signature name in the first metagraph of the catalog
    that the comparison accepts, and is either the entry stored there under
    that name or, when the metagraph has no such signature, the member of
    [Object.prototype] of that name; the error about the tags is thrown
    exactly when the comparison accepts no metagraph; and the resolver throws
    nothing but its two errors. *)
Theorem resolver_result_inversion
    (same : list string -> list string -> bool)
    (catalog : list MetaGraph) (wanted : list string) (signature : string) :
  (forall found,
      getSignatureDefEntryFromMetaGraphInfo same catalog wanted signature =
      Ret found ->
      exists before g after,
        catalog = (before ++ g :: after)%list /\
        (forall g', In g' before -> same wanted (tags g') = false) /\
        same wanted (tags g) = true /\
        ((exists entry,
             found = Own entry /\
             obj_get (signatureDefs g) signature = Some entry) \/
         (found = Inherited signature /\
          obj_get (signatureDefs g) signature = None /\
          is_prototype_member signature = true)))
  /\
  (getSignatureDefEntryFromMetaGraphInfo same catalog wanted signature =
   Throw (Error ("The SavedModel does not have tags: " ++ join_comma wanted))
   <-> forall g, In g catalog -> same wanted (tags g) = false)
  /\
  (forall e,
      getSignatureDefEntryFromMetaGraphInfo same catalog wanted signature =
      Throw e ->
      e = Error ("The SavedModel does not have tags: " ++ join_comma wanted) \/
      e = Error ("The SaveModel does not have signature: " ++ signature)).
Proof.
  induction catalog as [|g catalog (IHret & IHtags & IHthrow)]; simpl.
  - split; [discriminate|]. split.
    + split; [intros _ g [] | reflexivity].
    + intros e H. injection H as <-. left. reflexivity.
  - destruct (same wanted (tags g)) eqn:S.
    + unfold obj_read.
      destruct (obj_get (signatureDefs g) signature) as [e0|] eqn:G;
        [|destruct (is_prototype_member signature) eqn:M].
      * split; [|split].
        -- intros found H. injection H as <-. exists [], g, catalog.
           split; [reflexivity|]. split; [intros g' []|].
           split; [exact S|]. left. exists e0. auto.
        -- split; [discriminate|].
           intros Hall. specialize (Hall g (or_introl eq_refl)). congruence.
        -- intros e H. discriminate H.
      * split; [|split].
        -- intros found H. injection H as <-. exists [], g, catalog.
           split; [reflexivity|]. split; [intros g' []|].
           split; [exact S|]. right. auto.
        -- split; [discriminate|].
           intros Hall. specialize (Hall g (or_introl eq_refl)). congruence.
        -- intros e H. discriminate H.
      * split; [discriminate|]. split.
        -- split.
           ++ intros H. exfalso.
              apply (resolver_messages_differ signature (join_comma wanted)).
              congruence.
           ++ intros Hall. specialize (Hall g (or_introl eq_refl)). congruence.
        -- intros e H. injection H as <-. right. reflexivity.
    + split; [|split].
      * intros found H.
        destruct (IHret found H) as (before & g0 & after & -> & Hb & Hg & He).
        exists (g :: before), g0, after.
        split; [reflexivity|]. split; [|auto].
        intros g' [<-|Hin]; [exact S | apply Hb, Hin].
      * rewrite IHtags. split.
        -- intros Hall g' [<-|Hin]; [exact S | apply Hall, Hin].
        -- intros Hall g' Hin. apply Hall. right. exact Hin.
      * exact IHthrow.
Qed.

Lemma resolver_result_inversion_witness :
  exists before g after,
    serve_catalog = (before ++ g :: after)%list /\
    (forall g', In g' before ->
                stringArraysHaveSameElements ["serve"] (tags g') = false) /\
    stringArraysHaveSameElements ["serve"] (tags g) = true /\
    ((exists entry,
         Own predict_entry = Own entry /\
         obj_get (signatureDefs g) "predict" = Some entry) \/
     (Own predict_entry = Inherited "predict" /\
      obj_get (signatureDefs g) "predict" = None /\
      is_prototype_member "predict" = true)).
Proof.
  apply (proj1 (resolver_result_inversion stringArraysHaveSameElements
                  serve_catalog ["serve"] "predict") (Own predict_entry)).
  reflexivity.
Defined.

(** X15.  When the comparison of tag lists decides their equality as sets,
    the first metagraph whose tags equal the requested ones decides the
    result, whatever follows it in the catalog: the entry stored under the
    signature name when the metagraph has that signature; the error naming
    the signature when it has not and the name is not that of a member of
    [Object.prototype].  When no metagraph has the requested tags the result
    is the error naming them, joined by commas. *)
Theorem resolver_first_match_decides
    (same : list string -> list string -> bool) :
  (forall a b, same a b = true <-> same_tag_set a b) ->
  (forall (before after : list MetaGraph) (g : MetaGraph)
          (wanted : list string) (signature : string),
      (forall g', In g' before -> ~ same_tag_set wanted (tags g')) ->
      same_tag_set wanted (tags g) ->
      (In signature (obj_keys (signatureDefs g)) ->
       exists entry,
         obj_get (signatureDefs g) signature = Some entry /\
         getSignatureDefEntryFromMetaGraphInfo same
           (before ++ g :: after) wanted signature = Ret (Own entry)) /\
      (~ In signature (obj_keys (signatureDefs g)) ->
       is_prototype_member signature = false ->
       getSignatureDefEntryFromMetaGraphInfo same
         (before ++ g :: after) wanted signature =
       Throw (Error ("The SaveModel does not have signature: " ++ signature))))
  /\
  (forall (catalog : list MetaGraph) (wanted : list string) (signature : string),
      (forall g, In g catalog -> ~ same_tag_set wanted (tags g)) ->
      getSignatureDefEntryFromMetaGraphInfo same catalog wanted signature =
      Throw (Error ("The SavedModel does not have tags: " ++ join_comma wanted))).
Proof.
  intros Hsame.
  assert (Hnot : forall a b, ~ same_tag_set a b -> same a b = false).
  { intros a b Hn. destruct (same a b) eqn:E; [|reflexivity].
    apply Hsame in E. contradiction. }
  split.
  - intros before after g wanted signature Hno Hyes.
    rewrite (resolve_first_match same before after g wanted signature).
    + unfold obj_read. split.
      * intros Hin. destruct (obj_get (signatureDefs g) signature) as [entry|] eqn:E.
        -- exists entry. split; reflexivity.
        -- apply obj_get_None_keys in E. contradiction.
      * intros Hnin Hmem. apply obj_get_None_keys in Hnin.
        rewrite Hnin, Hmem. reflexivity.
    + intros g' Hg'. apply Hnot, Hno, Hg'.
    + apply Hsame, Hyes.
  - intros catalog wanted signature Hno. apply resolve_no_match.
    intros g Hg. apply Hnot, Hno, Hg.
Qed.

(** The three calls of the scenario of section 8, with the comparison of tag
    lists that the spec describes. *)
Lemma resolver_first_match_decides_witness :
  getSignatureDefEntryFromMetaGraphInfo stringArraysHaveSameElements
    serve_catalog ["serve"] "predict" = Ret (Own predict_entry) /\
  getSignatureDefEntryFromMetaGraphInfo stringArraysHaveSameElements
    serve_catalog ["serve"] "classify" =
  Throw (Error "The SaveModel does not have signature: classify") /\
  getSignatureDefEntryFromMetaGraphInfo stringArraysHaveSameElements
    serve_catalog ["train"] "predict" =
  Throw (Error "The SavedModel does not have tags: train").
Proof.
  assert (Hserve : same_tag_set ["serve"] ["serve"]).
  { apply stringArraysHaveSameElements_spec. reflexivity. }
  assert (Htrain : forall g, In g serve_catalog -> ~ same_tag_set ["train"] (tags g)).
  { intros g [<-|[]] H. apply stringArraysHaveSameElements_spec in H.
    vm_compute in H. discriminate. }
  destruct (resolver_first_match_decides stringArraysHaveSameElements
              stringArraysHaveSameElements_spec) as [Hfirst Hnone].
  destruct (Hfirst [] []
              {| tags := ["serve"]; signatureDefs := [("predict", predict_entry)] |}
              ["serve"] "predict" (fun g' (H : In g' []) => match H with end) Hserve)
    as [Hfound _].
  destruct (Hfirst [] []
              {| tags := ["serve"]; signatureDefs := [("predict", predict_entry)] |}
              ["serve"] "classify" (fun g' (H : In g' []) => match H with end) Hserve)
    as [_ Hmissing].
  split; [|split].
  - destruct Hfound as (entry & Hget & Hres).
    + simpl. left. reflexivity.
    + vm_compute in Hget. injection Hget as <-. exact Hres.
  - apply Hmissing; [|reflexivity]. simpl. intros [H|[]]. discriminate.
  - exact (Hnone serve_catalog ["train"] "predict" Htrain).
Defined.

(** ** Disposing all the handles of a session *)

Lemma references_delete_all (ids : list Z) :
  forall (m : gmap Z Loaded.t) (s : Z),
    references (delete_all ids m) s -> references m s.
Proof.
  induction ids as [|id ids IH]; intros m s H; simpl in H; [exact H|].
  destruct (IH _ _ H) as (id' & e & He & Hs).
  exists id', e. split; [|exact Hs].
  apply lookup_delete_Some in He. destruct He as [_ He]. exact He.
Qed.

Lemma lookup_delete_all_notin (ids : list Z) :
  forall (m : gmap Z Loaded.t) (id : Z),
    ~ In id ids -> delete_all ids m !! id = m !! id.
Proof.
  induction ids as [|id0 ids IH]; intros m id Hnin; simpl; [reflexivity|].
  rewrite IH by (intros Hin; apply Hnin; right; exact Hin).
  apply lookup_delete_ne. intros Heq. apply Hnin. left. exact Heq.
Qed.

(** As long as an entry on the session is left in the table, disposing
    handles of that session calls nothing. *)
Lemma dispose_all_no_call (hs : list TFSavedModel.t) :
  forall (p : Process) (s : Z),
    (forall h, In h hs ->
               TFSavedModel.disposed h = false /\ TFSavedModel.sessionId h = s) ->
    references (delete_all (map TFSavedModel.jsid hs) (loadedSavedModelPathMap p)) s ->
    loadedSavedModelPathMap (dispose_all hs p) =
      delete_all (map TFSavedModel.jsid hs) (loadedSavedModelPathMap p) /\
    deleteSavedModel_calls (dispose_all hs p) = deleteSavedModel_calls p.
Proof.
  induction hs as [|h rest IH]; intros p s Hlive Href; simpl; [auto|].
  destruct (Hlive h (or_introl eq_refl)) as [Hh Hs].
  simpl in Href.
  destruct (dispose_referenced h p Hh) as (h' & p1 & Hd & _ & Hm & _ & Hc).
  { rewrite Hs. exact (references_delete_all _ _ _ Href). }
  rewrite Hd. cbn [snd].
  destruct (IH p1 s) as [IHm IHc].
  - intros h0 Hin. apply Hlive. right. exact Hin.
  - rewrite Hm. exact Href.
  - rewrite IHm, IHc, Hm, Hc, app_nil_r. auto.
Qed.

Lemma dispose_all_final (hs : list TFSavedModel.t) (p : Process) (s : Z) :
  hs <> [] ->
  (forall h, In h hs ->
             TFSavedModel.disposed h = false /\ TFSavedModel.sessionId h = s) ->
  List.NoDup (map TFSavedModel.jsid hs) ->
  (forall h, In h hs ->
             exists e, loadedSavedModelPathMap p !! TFSavedModel.jsid h = Some e /\
                       Loaded.sessionId e = s) ->
  ~ references (delete_all (map TFSavedModel.jsid hs) (loadedSavedModelPathMap p)) s ->
  loadedSavedModelPathMap (dispose_all hs p) =
    delete_all (map TFSavedModel.jsid hs) (loadedSavedModelPathMap p) /\
  deleteSavedModel_calls (dispose_all hs p) =
    (deleteSavedModel_calls p ++ [s])%list.
Proof.
  revert p s.
  induction hs as [|h rest IH]; intros p s Hne Hlive Hnd Hreg Hno;
    [congruence|].
  destruct (Hlive h (or_introl eq_refl)) as [Hh Hs].
  simpl in Hnd. inversion Hnd as [|? ? Hnin Hnd']; subst.
  simpl. destruct rest as [|h2 rest'].
  - simpl in *.
    destruct (dispose_unreferenced h p Hh Hno) as (h' & p' & Hd & _ & Hm & _ & Hc).
    rewrite Hd. simpl. auto.
  - assert (Hne2 : TFSavedModel.jsid h <> TFSavedModel.jsid h2).
    { intros Heq. apply Hnin. simpl. left. symmetry. exact Heq. }
    destruct (dispose_referenced h p Hh) as (h' & p1 & Hd & _ & Hm & _ & Hc).
    { destruct (Hreg h2 (or_intror (or_introl eq_refl))) as (e & He & Hes).
      destruct (Hlive h2 (or_intror (or_introl eq_refl))) as [_ Hs2].
      exists (TFSavedModel.jsid h2), e. split; [|congruence].
      rewrite lookup_delete_ne by exact Hne2. exact He. }
    rewrite Hd. cbn [snd].
    destruct (IH p1 (TFSavedModel.sessionId h)) as [IHm IHc].
    + discriminate.
    + intros h0 Hin. apply Hlive. right. exact Hin.
    + exact Hnd'.
    + intros h0 Hin. destruct (Hreg h0 (or_intror Hin)) as (e & He & Hes).
      exists e. split; [|exact Hes]. rewrite Hm.
      rewrite lookup_delete_ne; [exact He|].
      intros Heq. apply Hnin. apply in_map_iff. exists h0. auto.
    + rewrite Hm. exact Hno.
    + rewrite IHm, IHc, Hm, Hc, app_nil_r. auto.
Qed.

(** X7.  Any number of live handles on one session, all in the table under
    distinct ids, no other entry being on that session.  Disposing them one
    after the other, in whatever order they are listed, calls
    [backend.deleteSavedModel] exactly once, for that session, and it is the
    dispose of the last handle that makes the call: as long as handles of
    the list are left, the calls are those made before.  In the end the
    entries of all the handles are gone. *)
Theorem dispose_all_deletes_session_once (hs : list TFSavedModel.t)
    (p : Process) (s : Z) :
  hs <> [] ->
  (forall h, In h hs ->
             TFSavedModel.disposed h = false /\ TFSavedModel.sessionId h = s) ->
  List.NoDup (map TFSavedModel.jsid hs) ->
  (forall h, In h hs ->
             exists e, loadedSavedModelPathMap p !! TFSavedModel.jsid h = Some e /\
                       Loaded.sessionId e = s) ->
  ~ references (delete_all (map TFSavedModel.jsid hs) (loadedSavedModelPathMap p)) s ->
  (forall done rest,
      hs = (done ++ rest)%list -> rest <> [] ->
      deleteSavedModel_calls (dispose_all done p) = deleteSavedModel_calls p) /\
  loadedSavedModelPathMap (dispose_all hs p) =
    delete_all (map TFSavedModel.jsid hs) (loadedSavedModelPathMap p) /\
  deleteSavedModel_calls (dispose_all hs p) =
    (deleteSavedModel_calls p ++ [s])%list.
Proof.
  intros Hne Hlive Hnd Hreg Hno. split.
  - intros done rest -> Hrest.
    destruct rest as [|h2 rest']; [congruence|].
    apply (dispose_all_no_call done p s).
    + intros h Hin. apply Hlive. apply in_or_app. left. exact Hin.
    + destruct (Hreg h2) as (e & He & Hes).
      { apply in_or_app. right. left. reflexivity. }
      exists (TFSavedModel.jsid h2), e. split; [|exact Hes].
      rewrite lookup_delete_all_notin; [exact He|].
      rewrite map_app in Hnd. simpl in Hnd.
      apply NoDup_remove_2 in Hnd. intros Hin. apply Hnd.
      apply in_or_app. left. exact Hin.
  - apply dispose_all_final; assumption.
Qed.

Lemma dispose_all_deletes_session_once_witness :
  deleteSavedModel_calls (dispose_all [handle_B; handle_C] three_sharing) = [] /\
  deleteSavedModel_calls (dispose_all [handle_B; handle_C; handle_A] three_sharing) =
  [7%Z].
Proof.
  destruct (dispose_all_deletes_session_once [handle_B; handle_C; handle_A]
              three_sharing 7%Z) as (Hbefore & _ & Hcalls).
  - discriminate.
  - intros h [<-|[<-|[<-|[]]]]; split; reflexivity.
  - simpl. repeat constructor; simpl; intuition discriminate.
  - intros h [<-|[<-|[<-|[]]]]; exists (served_on 7); split; reflexivity.
  - apply not_references_scan. vm_compute. reflexivity.
  - split; [|exact Hcalls].
    apply (Hbefore [handle_B; handle_C] [handle_A]); [reflexivity | discriminate].
Defined.

(** ** An accessor that throws *)

Lemma forEach_strip_app (a b : list loc) :
  forall hp : Heap,
    forEach_strip (a ++ b) hp =
    match forEach_strip a hp with
    | (Ret _, hp1) => forEach_strip b hp1
    | (Throw e, hp1) => (Throw e, hp1)
    end.
Proof.
  induction a as [|l a IH]; intros hp; simpl.
  - reflexivity.
  - destruct (hp !! l) as [info|]; [|reflexivity].
    destruct (name info); [apply IH | reflexivity].
Qed.

Lemma forEach_strip_untouched (results : list loc) (hp hp' : Heap)
    (r : outcome unit) (l : loc) :
  forEach_strip results hp = (r, hp') -> ~ In l results -> hp' !! l = hp !! l.
Proof.
  intros H Hnin.
  destruct (forEach_strip_lookup _ _ _ _ H) as [Hlen Hall].
  destruct (hp !! l) as [info|] eqn:E.
  - destruct (Hall l info E) as (k & Hle & _ & Hk).
    apply (count_occ_not_In Nat.eq_dec) in Hnin.
    assert (k = 0)%nat as -> by lia.
    rewrite Hk, strip_name_0, set_name_same. reflexivity.
  - apply lookup_ge_None. apply lookup_ge_None in E. lia.
Qed.

(** X8.  An accessor stops at the first listed tensor whose [name] is not a
    string and throws a [TypeError] there.  The tensors listed before it have
    been renamed as by a complete pass over them; every other object,
    including those listed after it, is as it was. *)
Theorem accessor_throws_at_first_bad_name (this : TFSavedModel.t) (hp : Heap)
    (pre post : list loc) (l : loc) (info : ModelTensorInfo) (dims : list Z) :
  obj_values (inputs_of (TFSavedModel.signature this)) = (pre ++ l :: post)%list ->
  (forall l', In l' pre -> string_named hp l') ->
  ~ In l pre ->
  hp !! l = Some info ->
  name info = NameDims dims ->
  exists hp1,
    TFSavedModel.inputs this hp =
    (Throw (TypeError "info.name.replace is not a function"), hp1) /\
    forEach_strip pre hp = (Ret tt, hp1) /\
    forall l', ~ In l' pre -> hp1 !! l' = hp !! l'.
Proof.
  intros Hvals Hpre Hnin Hl Hname.
  destruct (proj2 (forEach_strip_returns pre hp) Hpre) as (hp1 & H1).
  exists hp1.
  assert (Hsame : forall l', ~ In l' pre -> hp1 !! l' = hp !! l').
  { intros l' Hl'. exact (forEach_strip_untouched pre hp hp1 _ l' H1 Hl'). }
  split; [|split; assumption].
  unfold TFSavedModel.inputs, TFSavedModel.accessor.
  rewrite Hvals, forEach_strip_app, H1. simpl.
  rewrite (Hsame l Hnin), Hl, Hname. reflexivity.
Qed.

Lemma accessor_throws_at_first_bad_name_witness :
  exists hp1,
    TFSavedModel.inputs mixed_handle mixed_heap =
    (Throw (TypeError "info.name.replace is not a function"), hp1) /\
    forEach_strip [0%nat] mixed_heap = (Ret tt, hp1) /\
    forall l', ~ In l' [0%nat] -> hp1 !! l' = mixed_heap !! l'.
Proof.
  apply (accessor_throws_at_first_bad_name mixed_handle mixed_heap
           [0%nat] [2%nat] 1%nat (dims_named [1%Z]) [1%Z]).
  - reflexivity.
  - intros l' [<-|[]]. exists (named "a:0"), "a:0". split; reflexivity.
  - simpl. intuition discriminate.
  - reflexivity.
  - reflexivity.
Defined.

(** ** From the extractor to the handle *)





(** ** Calling an accessor again *)

Lemma accessor_again (entries : JsObject loc) (hp hp1 : Heap) (r : list loc) :
  TFSavedModel.accessor entries hp = (Ret r, hp1) ->
  List.NoDup r ->
  (forall l info s, In l r -> hp !! l = Some info -> name info = NameString s ->
                    ~ exists b, s = b ++ ":0:0") ->
  TFSavedModel.accessor entries hp1 = (Ret r, hp1).
Proof.
  intros H Hnd Hone.
  destruct (proj2 (accessor_twice entries) hp r hp1 H) as (hp2 & H2 & Hclean).
  rewrite H2. f_equal. apply Hclean.
  intros l info1 s1 Hin Hl1 Hs1.
  destruct (accessor_strips_once _ _ _ _ H Hnd l Hin) as (info & s & Hl & Hs & Hl').
  assert (info1 = set_name info (NameString (replace_colon0_at_end s)))
    by congruence.
  subst info1. simpl in Hs1. injection Hs1 as <-.
  destruct (ends_with_colon0 (replace_colon0_at_end s)) eqn:E; [|reflexivity].
  exfalso. apply (Hone l info s Hin Hl Hs).
  apply ends_with_colon0_after_replace. exact E.
Qed.

(** X10.  When no stored name ends with [:0:0] (each tensor being listed
    once), one call of an accessor brings the names to their final form: a
    second call returns the same sequence and changes no object. *)
Theorem accessor_second_call_changes_nothing (this : TFSavedModel.t)
    (hp hp1 : Heap) (r : list loc) :
  List.NoDup r ->
  (forall l info s, In l r -> hp !! l = Some info -> name info = NameString s ->
                    ~ exists b, s = b ++ ":0:0") ->
  (TFSavedModel.inputs this hp = (Ret r, hp1) ->
   TFSavedModel.inputs this hp1 = (Ret r, hp1)) /\
  (TFSavedModel.outputs this hp = (Ret r, hp1) ->
   TFSavedModel.outputs this hp1 = (Ret r, hp1)).
Proof.
  intros Hnd Hone.
  split; intros H; exact (accessor_again _ hp hp1 r H Hnd Hone).
Qed.

Lemma accessor_second_call_changes_nothing_witness :
  TFSavedModel.inputs predict_handle [set_name input_x (NameString "input_x")] =
  (Ret [0%nat], [set_name input_x (NameString "input_x")]).
Proof.
  apply (proj1 (accessor_second_call_changes_nothing predict_handle predict_heap
                  [set_name input_x (NameString "input_x")] [0%nat]
                  ltac:(repeat constructor; simpl; intuition)
                  ltac:(intros l info s [<-|[]] Hl Hs Hex;
                        injection Hl as <-; injection Hs as <-;
                        apply ends_with_colon0_after_replace in Hex;
                        discriminate Hex))).
  reflexivity.
Defined.

(** ** A disposed handle *)

(** X11.  [dispose()] changes nothing of the handle but its [disposed] flag,
    and the accessors do not look at that flag: on a disposed handle [inputs]
    and [outputs] do exactly what they do on the live one. *)
Theorem accessors_ignore_disposal (this this' : TFSavedModel.t) (p p' : Process) :
  TFSavedModel.dispose this p = (Ret tt, this', p') ->
  TFSavedModel.disposed this' = true /\
  TFSavedModel.sessionId this' = TFSavedModel.sessionId this /\
  TFSavedModel.jsid this' = TFSavedModel.jsid this /\
  TFSavedModel.signature this' = TFSavedModel.signature this /\
  forall hp : Heap,
    TFSavedModel.inputs this' hp = TFSavedModel.inputs this hp /\
    TFSavedModel.outputs this' hp = TFSavedModel.outputs this hp.
Proof.
  unfold TFSavedModel.dispose.
  destruct (TFSavedModel.disposed this); simpl; [discriminate|].
  destruct (TFSavedModel.session_still_used _ _);
    intros H; injection H as <- _; repeat split.
Qed.

Lemma accessors_ignore_disposal_witness :
  exists this' p',
    TFSavedModel.dispose predict_handle two_sharing = (Ret tt, this', p') /\
    TFSavedModel.inputs this' predict_heap =
    TFSavedModel.inputs predict_handle predict_heap.
Proof.
  destruct (dispose_live predict_handle two_sharing eq_refl)
    as (this' & p' & calls & (Hd & _) & _).
  exists this', p'. split; [exact Hd|].
  destruct (accessors_ignore_disposal predict_handle this' two_sharing p' Hd)
    as (_ & _ & _ & _ & Hacc).
  exact (proj1 (Hacc predict_heap)).
Defined.

(** ** The extractor on a directory without a readable descriptor *)

(** X12.  [getMetaGraphsFromSavedModel] on a directory whose
    [saved_model.pb] is missing or unreadable throws the error of
    [readSavedModelProto], whatever the enumeration, the dtype mapping and
    the deserializer are: nothing is extracted. *)
Theorem getMetaGraphsFromSavedModel_without_descriptor (DataType : JsObject Z)
    (mapTFDtypeToJSDtype : JsKey -> outcome string)
    (deserializeBinary : list Byte.byte -> outcome SavedModelProto)
    (fs : FileSystem) (path : string) :
  fs (path ++ SAVED_MODEL_FILE_NAME) = NoEntry \/
  fs (path ++ SAVED_MODEL_FILE_NAME) = NoReadPermission ->
  getMetaGraphsFromSavedModel DataType mapTFDtypeToJSDtype deserializeBinary
    fs path =
  Throw (Error ("There is no saved_model.pb file in the directory: " ++ path)).
Proof.
  unfold getMetaGraphsFromSavedModel, readSavedModelProto, accessSync.
  intros [H|H]; rewrite H; reflexivity.
Qed.

Lemma getMetaGraphsFromSavedModel_without_descriptor_witness :
  getMetaGraphsFromSavedModel DataType_sample mapper_sample deserialize_sample
    fs_sample "/locked" =
  Throw (Error "There is no saved_model.pb file in the directory: /locked").
Proof.
  apply (getMetaGraphsFromSavedModel_without_descriptor DataType_sample
           mapper_sample deserialize_sample fs_sample "/locked").
  right. reflexivity.
Defined.

(** ** The reserved signature and the resolver *)

Lemma resolve_absent_signature (same : list string -> list string -> bool)
    (catalog : list MetaGraph) (wanted : list string) (signature : string) :
  (forall g, In g catalog -> obj_get (signatureDefs g) signature = None) ->
  is_prototype_member signature = false ->
  getSignatureDefEntryFromMetaGraphInfo same catalog wanted signature =
  Throw (Error ("The SavedModel does not have tags: " ++ join_comma wanted)) \/
  getSignatureDefEntryFromMetaGraphInfo same catalog wanted signature =
  Throw (Error ("The SaveModel does not have signature: " ++ signature)).
Proof.
  induction catalog as [|g catalog IH]; intros Habs Hmem; simpl.
  - left. reflexivity.
  - destruct (same wanted (tags g)).
    + unfold obj_read. rewrite (Habs g (or_introl eq_refl)), Hmem.
      right. reflexivity.
    + apply IH; [|exact Hmem]. intros g' Hin. apply Habs. right. exact Hin.
Qed.

Lemma extracted_without_init_op (DataType : JsObject Z)
    (mapTFDtypeToJSDtype : JsKey -> outcome string)
    (l : list MetaGraphDefProto) (catalog : list MetaGraph) :
  Forall2 (extracted_from DataType mapTFDtypeToJSDtype) l catalog ->
  forall g, In g catalog ->
            obj_get (signatureDefs g) SAVED_MODEL_INIT_OP_KEY = None.
Proof.
  induction 1 as [|m g0 l catalog Hm _ IH]; intros g Hin; [destruct Hin|].
  destruct Hin as [<-|Hin]; [|apply IH, Hin].
  destruct Hm as (_ & Hno & _). apply obj_get_None_keys. exact Hno.
Qed.

(** X13.  From a catalog that the extractor returned, the signature
    [__saved_model_init_op] cannot be resolved, under any tags and with any
    comparison of tag lists: the resolver throws one of its two errors. *)
Theorem init_op_is_never_resolved (DataType : JsObject Z)
    (mapTFDtypeToJSDtype : JsKey -> outcome string)
    (modelMessage : SavedModelProto) (catalog : list MetaGraph)
    (same : list string -> list string -> bool) (wanted : list string) :
  metaGraphsOfMessage DataType mapTFDtypeToJSDtype modelMessage = Ret catalog ->
  getSignatureDefEntryFromMetaGraphInfo same catalog wanted
    SAVED_MODEL_INIT_OP_KEY =
  Throw (Error ("The SavedModel does not have tags: " ++ join_comma wanted)) \/
  getSignatureDefEntryFromMetaGraphInfo same catalog wanted
    SAVED_MODEL_INIT_OP_KEY =
  Throw (Error ("The SaveModel does not have signature: "
                ++ SAVED_MODEL_INIT_OP_KEY)).
Proof.
  intros H. apply resolve_absent_signature; [|reflexivity].
  unfold metaGraphsOfMessage in H.
  destruct (metaGraphs_loop_extracted _ _ _ _ _ H) as (produced & -> & Hall).
  exact (extracted_without_init_op _ _ _ _ Hall).
Qed.

Lemma init_op_is_never_resolved_witness :
  getSignatureDefEntryFromMetaGraphInfo stringArraysHaveSameElements
    [ {| tags := ["serve"];
         signatureDefs :=
           [("predict", predict_extracted (JString "DT_FLOAT") "float32")] |} ]
    ["serve"] "__saved_model_init_op" =
  Throw (Error "The SaveModel does not have signature: __saved_model_init_op").
Proof.
  destruct (init_op_is_never_resolved DataType_sample mapper_sample serve_message
              [ {| tags := ["serve"];
                   signatureDefs :=
                     [("predict",
                       predict_extracted (JString "DT_FLOAT") "float32")] |} ]
              stringArraysHaveSameElements ["serve"] eq_refl) as [H|H].
  - vm_compute in H. discriminate H.
  - exact H.
Defined.

(** ** A tensor listed several times *)

(** X14.  After an accessor has returned, every object of the heap is the
    object that was there with its name stripped once for each time it
    occurs in the returned array: a tensor reachable under two keys loses
    two suffixes in one call, and an object that is not returned is
    untouched. *)
Theorem accessor_strips_once_per_occurrence (this : TFSavedModel.t)
    (hp hp' : Heap) (r : list loc) :
  TFSavedModel.inputs this hp = (Ret r, hp') \/
  TFSavedModel.outputs this hp = (Ret r, hp') ->
  forall l info,
    hp !! l = Some info ->
    hp' !! l =
    Some (set_name info (strip_name (count_occ Nat.eq_dec r l) (name info))).
Proof.
  intros H l info Hl.
  assert (Hacc : exists entries, TFSavedModel.accessor entries hp = (Ret r, hp')).
  { destruct H as [H|H]; eexists; exact H. }
  destruct Hacc as (entries & Hacc).
  apply accessor_returns in Hacc. destruct Hacc as [-> Hf].
  destruct (forEach_strip_lookup _ _ _ _ Hf) as [_ Hall].
  destruct (Hall l info Hl) as (k & _ & Hk & Hlook).
  rewrite Hlook, (Hk eq_refl). reflexivity.
Qed.

Lemma accessor_strips_once_per_occurrence_witness :
  TFSavedModel.inputs aliased_handle aliased_heap =
  (Ret [0%nat; 0%nat], [named "a"]) /\
  [named "a"] !! 0%nat =
  Some (set_name (named "a:0:0")
          (strip_name (count_occ Nat.eq_dec [0%nat; 0%nat] 0%nat)
             (name (named "a:0:0")))).
Proof.
  split; [reflexivity|].
  apply (accessor_strips_once_per_occurrence aliased_handle aliased_heap
           [named "a"] [0%nat; 0%nat] (or_introl eq_refl) 0%nat (named "a:0:0")).
  reflexivity.
Defined.
